(** * limitlesstcg-mcp: the authenticated request client and its callers

    A shallow embedding of the TypeScript sources of the Limitless TCG MCP
    server.  The repository holds several generations of the same server:

    - [ServerTs]: the first document of [src/server.ts]; its
      [limitlessRequest] has two arguments and always authenticates with
      the [X-Access-Key] header;
    - [Flagged]: [src/unnamed/part_000] (the same function is found in
      [part_001], [part_002] and the second document of [src/server.ts]);
      its [limitlessRequest] takes a third argument [useHeaderAuth] and
      falls back from query-parameter to header authentication;
    - [Resources]: the resource handlers of [src/unnamed/part_001];
    - [Startup]: credential resolution at process start, strict
      ([part_000], [part_001], [src/server.ts]) and lenient ([part_002]).

    [async]/[await] is sequential in every function modelled here, so a
    promise is modelled by the computation that produces its outcome. *)

From Stdlib Require Import String Ascii ZArith List Bool Lia DecimalString.
From Equations Require Import Equations.
Import ListNotations.
Open Scope string_scope.

(** ** JavaScript values, strings and errors *)

Module Js.

(** The scalars a [Record<string, unknown>] of query parameters holds
    after schema validation.  [Number] stands for the integer-valued
    numbers below 10^21 in magnitude (page numbers and result limits),
    which [String] prints in plain decimal; fractions, [NaN], the
    infinities and larger numbers have no counterpart here. *)
Inductive value : Type :=
| Undefined
| Null
| Boolean (b : bool)
| Number (z : Z)
| Str (s : string).

(** ToBoolean, as used by [if (game)] and [!apiKey]. *)
Definition truthy (v : value) : bool :=
  match v with
  | Undefined | Null => false
  | Boolean b => b
  | Number z => negb (z =? 0)%Z
  | Str s => negb (s =? "")
  end.

Definition number_toString (z : Z) : string :=
  NilZero.string_of_int (Z.to_int z).

(** [String(value)], also the conversion done by a template literal. *)
Definition String (v : value) : string :=
  match v with
  | Undefined => "undefined"
  | Null => "null"
  | Boolean true => "true"
  | Boolean false => "false"
  | Number z => number_toString z
  | Str s => s
  end.

(** [value !== undefined] *)
Definition is_defined (v : value) : bool :=
  match v with
  | Undefined => false
  | _ => true
  end.

(** An [Error] object: what [throw new Error(msg)] raises and what a
    rejected [fetch] or [response.json()] carries. *)
Record error : Type := mkError { name : string; message : string }.

Definition Error (msg : string) : error := mkError "Error" msg.

(** [Error.prototype.toString], the conversion done by [`${error}`]. *)
Definition error_toString (e : error) : string :=
  if name e =? "" then message e
  else if message e =? "" then name e
  else name e ++ ": " ++ message e.

(** [s.startsWith(p)] *)
Definition startsWith (p s : string) : bool := String.prefix p s.

(** [s.substring(1)] *)
Definition substring1 (s : string) : string :=
  match s with
  | EmptyString => EmptyString
  | String.String _ rest => rest
  end.

(** [s.split(sep)] for a one-character separator. *)
Fixpoint split (sep : ascii) (s : string) : list string :=
  match s with
  | EmptyString => [EmptyString]
  | String.String c rest =>
      if Ascii.eqb c sep then EmptyString :: split sep rest
      else match split sep rest with
           | piece :: pieces => String.String c piece :: pieces
           | [] => [String.String c EmptyString]
           end
  end.

(** A plain object used as a record: its own enumerable string keys in
    insertion order, as [Object.entries] lists them when no key is an
    array index (the handlers build no record with such a key). *)
Definition record : Type := list (string * value).

Definition entries (o : record) : list (string * value) := o.

(** [o.key = v]: overwrite in place, or add at the end. *)
Fixpoint set (key : string) (v : value) (o : record) : record :=
  match o with
  | [] => [(key, v)]
  | (k, w) :: rest =>
      if k =? key then (k, v) :: rest else (k, w) :: set key v rest
  end.

Definition keys (o : record) : list string := map fst o.

End Js.

(** ** URLs, requests and responses *)

(** Base URL for Limitless TCG API *)
Definition API_BASE_URL : string := "https://play.limitlesstcg.com/api".

(** A [URL] object as the program builds it: [address] is the text
    handed to [new URL], [searchParams] the pairs the program appends with
    [url.searchParams.append], in order.  What the platform makes of the
    text when it parses it (dot segments, a [?] or [#] inside it,
    percent-encoding) is not modelled: [url.toString()] is a function of
    these two components, and the statements below are about them. *)
Record URL : Type := mkURL {
  address : string;
  searchParams : list (string * string)
}.

(** [new URL(s)], before anything is appended. *)
Definition new_URL (s : string) : URL := mkURL s [].

(** [url.searchParams.append(key, value)] *)
Definition searchParams_append (key v : string) (url : URL) : URL :=
  mkURL (address url) (searchParams url ++ [(key, v)]).

(** One outbound [fetch(url.toString(), { headers })]. *)
Record Request : Type := mkRequest {
  url : URL;
  headers : list (string * string)
}.

Section Net.

(** [Json] is the type of parsed response bodies. *)
Context {Json : Type}.

(** What the caller of [fetch] sees of a response: the status line and
    the outcome of [response.json()], which rejects when the body is
    not JSON. *)
Record Response : Type := mkResponse {
  status : Z;
  statusText : string;
  json : Js.error + Json
}.

(** [response.ok]: the status is in the range 200-299. *)
Definition ok (r : Response) : bool :=
  ((200 <=? status r) && (status r <=? 299))%Z.

(** A [fetch] either rejects (network failure) or resolves to a
    response, whatever its status. *)
Inductive FetchOutcome : Type :=
| Rejected (e : Js.error)
| Resolved (r : Response).

End Net.

Arguments Response : clear implicits.
Arguments FetchOutcome : clear implicits.

(** ** The effects of a request: a state and exception monad *)

Inductive Result (A : Type) : Type :=
| Returned (a : A)
| Thrown (e : Js.error).

Arguments Returned {A} a.
Arguments Thrown {A} e.

Section Effects.

Context {World Json : Type}.

(** The upstream API: it answers a request from its current state. *)
Variable upstream : World -> Request -> FetchOutcome Json * World.

(** The process as a request sees it: the upstream, the requests sent
    so far (oldest first) and the lines written to the console. *)
Record State : Type := mkState {
  world : World;
  sent : list Request;
  console : list string
}.

Definition M (A : Type) : Type := State -> Result A * State.

Definition ret {A} (a : A) : M A := fun st => (Returned a, st).

Definition bind {A B} (m : M A) (k : A -> M B) : M B :=
  fun st =>
    match m st with
    | (Returned a, st') => k a st'
    | (Thrown e, st') => (Thrown e, st')
    end.

Definition throw {A} (e : Js.error) : M A := fun st => (Thrown e, st).

(** [try { body } catch (error) { handler }] *)
Definition try_catch {A} (body : M A) (handler : Js.error -> M A) : M A :=
  fun st =>
    match body st with
    | (Returned a, st') => (Returned a, st')
    | (Thrown e, st') => handler e st'
    end.

(** [console.error] and [console.log] *)
Definition console_write (line : string) : M unit :=
  fun st => (Returned tt, mkState (world st) (sent st) (console st ++ [line])).

(** [await fetch(url.toString(), { headers })] *)
Definition fetch (u : URL) (h : list (string * string)) : M (Response Json) :=
  fun st =>
    let req := mkRequest u h in
    let '(outcome, w) := upstream (world st) req in
    let st' := mkState w (sent st ++ [req]) (console st) in
    match outcome with
    | Rejected e => (Thrown e, st')
    | Resolved r => (Returned r, st')
    end.

(** [await response.json()] *)
Definition response_json (r : Response Json) : M Json :=
  match json r with
  | inl e => throw e
  | inr data => ret data
  end.

End Effects.

Declare Scope js_scope.
Delimit Scope js_scope with js.
Notation "x <- m ;; k" := (bind m (fun x => k))
(at level 61, m at next level, right associativity) : js_scope.
Notation "m ;;; k" := (bind m (fun _ => k))
(at level 61, right associativity) : js_scope.
Open Scope js_scope.

(** ** What every generation of [limitlessRequest] shares *)

Section Common.

Context {World Json : Type}.
Variable upstream : World -> Request -> FetchOutcome Json * World.

(** Add any query parameters: the [for ... of Object.entries(params)]
    loop, from the URL built so far. *)
Definition add_query_parameters (params : Js.record) (u : URL) : URL :=
  fold_left
    (fun u '(key, value) =>
       if Js.is_defined value
       then searchParams_append key (Js.String value) u
       else u)
    (Js.entries params) u.

(** [`API request failed: ${response.status} ${response.statusText}`] *)
Definition api_request_failed (r : Response Json) : string :=
  "API request failed: " ++ Js.number_toString (status r) ++ " " ++ statusText r.

(** The body of the [try] block: fetch, check the status, parse. *)
Definition attempt (req : Request) : M Json :=
  response <- fetch upstream (url req) (headers req) ;;
  if negb (ok response)
  then console_write (api_request_failed response) ;;;
       throw (Js.Error (api_request_failed response))
  else data <- response_json response ;;
       ret data.

(** [console.error(`Error fetching from Limitless API: ${error}`)] *)
Definition report (error : Js.error) : M (World := World) unit :=
  console_write ("Error fetching from Limitless API: " ++ Js.error_toString error).

End Common.

(** ** The tool interface *)

(** The parameters of [get_tournaments] once the schema has accepted
    them: each is a string, a number, [null] or [undefined]. *)
Record TournamentsParams : Type := mkTournamentsParams {
  game : Js.value;
  format : Js.value;
  organizerId : Js.value;
  limit : Js.value;
  page : Js.value
}.

(** [{ type: "text", text }] *)
Record TextContent : Type := mkTextContent {
  type : string;
  text : string
}.

(** The envelope a tool returns; [isError] is [None] when the property
    is absent. *)
Record CallToolResult : Type := mkCallToolResult {
  isError : option bool;
  content : list TextContent
}.

Definition success (body : string) : CallToolResult :=
  mkCallToolResult None [mkTextContent "text" body].

Definition failure (body : string) : CallToolResult :=
  mkCallToolResult (Some true) [mkTextContent "text" body].

(** A call of one of the four registered tools with its arguments. *)
Inductive Invocation : Type :=
| GetTournaments (args : TournamentsParams)
| GetTournamentDetails (id : string)
| GetTournamentStandings (id : string)
| GetTournamentPairings (id : string).

(** Prepare query parameters for the API request: the five
    [if (x) queryParams.x = x] statements, shared by every generation. *)
Definition queryParams (args : TournamentsParams) : Js.record :=
  let q : Js.record := [] in
  let q := if Js.truthy (game args) then Js.set "game" (game args) q else q in
  let q := if Js.truthy (format args) then Js.set "format" (format args) q else q in
  let q := if Js.truthy (organizerId args)
           then Js.set "organizerId" (organizerId args) q else q in
  let q := if Js.truthy (limit args) then Js.set "limit" (limit args) q else q in
  let q := if Js.truthy (page args) then Js.set "page" (page args) q else q in
  q.

Definition newline : string := String (ascii_of_nat 10) EmptyString.

(** ** The request client with authentication fallback
    ([src/unnamed/part_000], lines 45-93) *)

Module Flagged.

Section Client.

Context {World Json : Type}.
Variable upstream : World -> Request -> FetchOutcome Json * World.

(** [const validApiKey = apiKey as string] *)
Variable validApiKey : string.

(** [JSON.stringify(data, null, 2)], the platform's serialiser. *)
Variable JSON_stringify_pretty : Json -> string.

(** [`${tournament.name || id}`]: a property read on the parsed body
    and its conversion to text, both the platform's; the read throws a
    [TypeError] when the body is [null]. *)
Variable name_or : Json -> string -> Js.error + string.

(** Remove leading slash if present for consistency *)
Definition cleanEndpoint (endpoint : string) : string :=
  if Js.startsWith "/" endpoint then Js.substring1 endpoint else endpoint.

(** Lines 47-68: the URL and the headers of the request. *)
Definition prepare (endpoint : string) (params : Js.record)
    (useHeaderAuth : bool) : Request :=
  let u := new_URL (API_BASE_URL ++ "/" ++ cleanEndpoint endpoint) in
  let u := add_query_parameters params u in
  if useHeaderAuth
  then mkRequest u [("X-Access-Key", validApiKey)]
  else mkRequest (searchParams_append "key" validApiKey u) [].

(** The number of requests a call may still send. *)
Definition attempts_left (useHeaderAuth : bool) : nat :=
  if useHeaderAuth then 1 else 2.

Equations limitlessRequest (endpoint : string) (params : Js.record)
    (useHeaderAuth : bool) (st : State (World := World)) : Result Json * State (World := World)
    by wf (attempts_left useHeaderAuth) lt :=
limitlessRequest endpoint params useHeaderAuth st :=
  try_catch
    (attempt upstream (prepare endpoint params useHeaderAuth))
    (fun error =>
       report error ;;;
       match bool_dec useHeaderAuth false with
       | left query_auth =>
           console_write "Retrying with header authentication..." ;;;
           (fun st' => limitlessRequest endpoint params true st')
       | right _ => throw error
       end) st.

(** Construct the title based on the query parameters (lines 149-154). *)
Definition title (args : TournamentsParams) : string :=
  let t := "Limitless Tournaments" in
  let t := if Js.truthy (game args)
           then t ++ " - " ++ Js.String (game args) else t in
  let t := if Js.truthy (format args)
           then t ++ " (" ++ Js.String (format args) ++ " format)" else t in
  let t := if Js.truthy (organizerId args)
           then t ++ " by organizer " ++ Js.String (organizerId args) else t in
  let t := if Js.truthy (limit args)
           then t ++ " (limited to " ++ Js.String (limit args) ++ ")" else t in
  let t := if Js.truthy (page args)
           then t ++ " - Page " ++ Js.String (page args) else t in
  t.

(** Tool 1: Get Tournament List (lines 131-172) *)
Definition get_tournaments (args : TournamentsParams) : M CallToolResult :=
  try_catch
    (console_write ("game " ++ Js.String (game args)) ;;;
     tournaments <- limitlessRequest "tournaments" (queryParams args) false ;;
     ret (success ("# " ++ title args ++ newline ++ newline
                   ++ JSON_stringify_pretty tournaments)))
    (fun error =>
       ret (failure ("Error fetching tournaments: " ++ Js.error_toString error))).

(** Tool 2: Get Tournament Details (lines 175-199) *)
Definition get_tournament_details (id : string) : M CallToolResult :=
  try_catch
    (tournament <- limitlessRequest ("tournaments/" ++ id ++ "/details") [] false ;;
     match name_or tournament id with
     | inl type_error => throw type_error
     | inr name =>
         ret (success ("# Tournament: " ++ name ++ newline ++ newline
                       ++ JSON_stringify_pretty tournament))
     end)
    (fun error =>
       ret (failure ("Error fetching tournament details: "
                     ++ Js.error_toString error))).

(** Tool 3: Get Tournament Standings (lines 242-266) *)
Definition get_tournament_standings (id : string) : M CallToolResult :=
  try_catch
    (standings <- limitlessRequest ("tournaments/" ++ id ++ "/standings") [] false ;;
     ret (success ("# Tournament Standings" ++ newline ++ newline
                   ++ JSON_stringify_pretty standings)))
    (fun error =>
       ret (failure ("Error fetching tournament standings: "
                     ++ Js.error_toString error))).

(** Tool 4: Get Tournament Pairings (lines 269-293) *)
Definition get_tournament_pairings (id : string) : M CallToolResult :=
  try_catch
    (pairings <- limitlessRequest ("tournaments/" ++ id ++ "/pairings") [] false ;;
     ret (success ("# Tournament Pairings" ++ newline ++ newline
                   ++ JSON_stringify_pretty pairings)))
    (fun error =>
       ret (failure ("Error fetching tournament pairings: "
                     ++ Js.error_toString error))).

(** The registry filled by the four [server.tool] calls. *)
Definition call_tool (i : Invocation) : M CallToolResult :=
  match i with
  | GetTournaments args => get_tournaments args
  | GetTournamentDetails id => get_tournament_details id
  | GetTournamentStandings id => get_tournament_standings id
  | GetTournamentPairings id => get_tournament_pairings id
  end.

End Client.

End Flagged.

(** ** The header-only request client
    ([src/server.ts], first document, lines 58-87 and 122-276) *)

Module ServerTs.

Section Client.

Context {World Json : Type}.
Variable upstream : World -> Request -> FetchOutcome Json * World.

(** [const validApiKey = apiKey as string] *)
Variable validApiKey : string.

(** [JSON.stringify(data)], the platform's serialiser. *)
Variable JSON_stringify : Json -> string.

(** Lines 59-71: the URL and the headers of the request. *)
Definition prepare (endpoint : string) (params : Js.record) : Request :=
  let u := new_URL (API_BASE_URL ++ "/" ++ endpoint) in
  let u := add_query_parameters params u in
  mkRequest u [("X-Access-Key", validApiKey)].

(** Helper function to make authenticated API requests *)
Definition limitlessRequest (endpoint : string) (params : Js.record) : M Json :=
  try_catch
    (attempt upstream (prepare endpoint params))
    (fun error => report error ;;; throw error).

Definition get_tournaments (args : TournamentsParams) : M CallToolResult :=
  try_catch
    (tournaments <- limitlessRequest "tournaments" (queryParams args) ;;
     ret (success (JSON_stringify tournaments)))
    (fun error =>
       ret (failure ("Error fetching tournaments: " ++ Js.error_toString error))).

Definition get_tournament_details (id : string) : M CallToolResult :=
  try_catch
    (tournament <- limitlessRequest ("tournaments/" ++ id ++ "/details") [] ;;
     ret (success (JSON_stringify tournament)))
    (fun error =>
       ret (failure ("Error fetching tournament details: "
                     ++ Js.error_toString error))).

Definition get_tournament_standings (id : string) : M CallToolResult :=
  try_catch
    (standings <- limitlessRequest ("tournaments/" ++ id ++ "/standings") [] ;;
     ret (success (JSON_stringify standings)))
    (fun error =>
       ret (failure ("Error fetching tournament standings: "
                     ++ Js.error_toString error))).

Definition get_tournament_pairings (id : string) : M CallToolResult :=
  try_catch
    (pairings <- limitlessRequest ("tournaments/" ++ id ++ "/pairings") [] ;;
     ret (success (JSON_stringify pairings)))
    (fun error =>
       ret (failure ("Error fetching tournament pairings: "
                     ++ Js.error_toString error))).

(** The registry filled by the four [server.tool] calls. *)
Definition call_tool (i : Invocation) : M CallToolResult :=
  match i with
  | GetTournaments args => get_tournaments args
  | GetTournamentDetails id => get_tournament_details id
  | GetTournamentStandings id => get_tournament_standings id
  | GetTournamentPairings id => get_tournament_pairings id
  end.

End Client.

End ServerTs.

(** ** The resource handlers ([src/unnamed/part_001], lines 94-152)

    Their [limitlessRequest] is the one of [Flagged]; [part_001] also
    prints the URL before each fetch, a line left out here. *)

Module Resources.

Section Handlers.

Context {World Json : Type}.
Variable upstream : World -> Request -> FetchOutcome Json * World.
Variable validApiKey : string.
Variable JSON_stringify_pretty : Json -> string.

(** One element of [contents] in the value a resource handler returns. *)
Record ResourceContents : Type := mkResourceContents {
  uri : string;
  metadata_title : string;
  metadata_description : string;
  resource_text : string
}.

(** Tournament list resource: no [try], no [catch]. *)
Definition tournaments (uri_href : string) : M (list ResourceContents) :=
  tournaments <- Flagged.limitlessRequest upstream validApiKey "tournaments" [] false ;;
  ret [mkResourceContents uri_href
         "Limitless TCG Tournaments"
         "List of tournaments from Limitless TCG"
         (JSON_stringify_pretty tournaments)].

(** Tournament standings resource *)
Definition tournament_standings (uri_href id : string)
    : M (list ResourceContents) :=
  standings <- Flagged.limitlessRequest upstream validApiKey
                 ("tournaments/" ++ id ++ "/standings") [] false ;;
  ret [mkResourceContents uri_href
         "Tournament Standings"
         ("Standings for tournament ID " ++ id)
         (JSON_stringify_pretty standings)].

End Handlers.

End Resources.

(** ** Credential resolution at process start *)

Module Startup.

(** Get API key from environment variables or command line arguments.
    [env] is [process.env.LIMITLESS_API_KEY] ([None] when unset), [argv]
    is [process.argv].  The result is a string, [null], or [undefined]
    when the split has no second piece. *)
Definition getApiKey (env : option string) (argv : list string) : Js.value :=
  let env_value := match env with Some s => Js.Str s | None => Js.Undefined end in
  if Js.truthy env_value then env_value
  else
    match find (fun arg => Js.startsWith "api-key=" arg) argv with
    | Some apiKeyArg =>
        if Js.truthy (Js.Str apiKeyArg)
        then match nth_error (Js.split "=" apiKeyArg) 1 with
             | Some piece => Js.Str piece
             | None => Js.Undefined
             end
        else Js.Null
    | None => Js.Null
    end.

Definition NO_API_KEY : string :=
  "ERROR: No API key provided. Please set LIMITLESS_API_KEY environment variable or provide api-key=<API_KEY_HERE> argument.".

(** How the top-level code ends: [process.exit] after writing to the
    error stream, or a server connected with its credential. *)
Inductive Outcome : Type :=
| Exited (code : Z) (stderr : list string)
| Serving (validApiKey : string).

(** [part_000], [part_001] and [src/server.ts] lines 48-55:
    [if (!apiKey) { console.error(...); process.exit(1); }], then
    [const validApiKey = apiKey as string].  The assertion does nothing
    at run time; a truthy [apiKey] is a string, which [Js.String] leaves
    as it is. *)
Definition strict (env : option string) (argv : list string) : Outcome :=
  let apiKey := getApiKey env argv in
  if negb (Js.truthy apiKey) then Exited 1 [NO_API_KEY]
  else Serving (Js.String apiKey).

Definition DEFAULT_KEY : string := "dddc5b23b5bae0a87ca800c20d336022".

(** [part_002] line 35 and [src/server.ts], second document:
    [getApiKey() || "dddc..."], the check being commented out. *)
Definition lenient (env : option string) (argv : list string) : Outcome :=
  let apiKey := getApiKey env argv in
  Serving (if Js.truthy apiKey then Js.String apiKey else DEFAULT_KEY).

End Startup.

(** ** The list tool without its trace line
    ([src/server.ts], second document, lines 396-436)

    The second document of [src/server.ts] has the client and the tools
    of [part_000]; its list tool alone differs, by not printing [game]. *)

Module ServerTsSecond.

Section Tools.

Context {World Json : Type}.
Variable upstream : World -> Request -> FetchOutcome Json * World.
Variable validApiKey : string.
Variable JSON_stringify_pretty : Json -> string.

(** Tool 1: Get Tournament List *)
Definition get_tournaments (args : TournamentsParams) : M CallToolResult :=
  try_catch
    (tournaments <- Flagged.limitlessRequest upstream validApiKey "tournaments"
                      (queryParams args) false ;;
     ret (success ("# " ++ Flagged.title args ++ newline ++ newline
                   ++ JSON_stringify_pretty tournaments)))
    (fun error =>
       ret (failure ("Error fetching tournaments: " ++ Js.error_toString error))).

End Tools.

End ServerTsSecond.

(** ** The resources of [src/unnamed/part_002] (lines 94-207)

    The client is the one of [Flagged]; this file too prints the URL
    before each fetch, a line left out here.  The variables of the URI
    template reach the handlers as strings or [undefined]. *)

Module ResourcesTwo.

Section Handlers.

Context {World Json : Type}.
Variable upstream : World -> Request -> FetchOutcome Json * World.
Variable validApiKey : string.
Variable JSON_stringify_pretty : Json -> string.

(** [`${tournament.name || id}`], as in [Flagged]. *)
Variable name_or : Json -> string -> Js.error + string.

(** Tournament list resource (lines 95-128) *)
Definition tournaments (uri_href : string) (args : TournamentsParams)
    : M (list Resources.ResourceContents) :=
  tournaments <- Flagged.limitlessRequest upstream validApiKey "tournaments"
                   (queryParams args) false ;;
  ret [Resources.mkResourceContents uri_href
         (Flagged.title args)
         "List of tournaments from Limitless TCG"
         (JSON_stringify_pretty tournaments)].

(** Tournament details resource (lines 131-148); the name is read once
    for the title and once for the description. *)
Definition tournament_details (uri_href id : string)
    : M (list Resources.ResourceContents) :=
  tournament <- Flagged.limitlessRequest upstream validApiKey
                  ("tournaments/" ++ id ++ "/details") [] false ;;
  match name_or tournament id with
  | inl type_error => throw type_error
  | inr title_name =>
      match name_or tournament id with
      | inl type_error => throw type_error
      | inr description_name =>
          ret [Resources.mkResourceContents uri_href
                 ("Tournament: " ++ title_name)
                 ("Details for tournament " ++ description_name)
                 (JSON_stringify_pretty tournament)]
      end
  end.

(** Tournament standings resource (lines 151-168) *)
Definition tournament_standings (uri_href id : string)
    : M (list Resources.ResourceContents) :=
  standings <- Flagged.limitlessRequest upstream validApiKey
                 ("tournaments/" ++ id ++ "/standings") [] false ;;
  ret [Resources.mkResourceContents uri_href
         "Tournament Standings"
         ("Standings for tournament ID " ++ id)
         (JSON_stringify_pretty standings)].

(** Tournament pairings resource (lines 191-207) *)
Definition tournament_pairings (uri_href id : string)
    : M (list Resources.ResourceContents) :=
  pairings <- Flagged.limitlessRequest upstream validApiKey
                ("tournaments/" ++ id ++ "/pairings") [] false ;;
  ret [Resources.mkResourceContents uri_href
         "Tournament Pairings"
         ("Match pairings for tournament ID " ++ id)
         (JSON_stringify_pretty pairings)].

(** The registry filled by the four [server.resource] calls: which
    handler reads an invocation, given the address it was asked under. *)
Definition read_resource (uri_href : string) (i : Invocation)
    : M (list Resources.ResourceContents) :=
  match i with
  | GetTournaments args => tournaments uri_href args
  | GetTournamentDetails id => tournament_details uri_href id
  | GetTournamentStandings id => tournament_standings uri_href id
  | GetTournamentPairings id => tournament_pairings uri_href id
  end.

End Handlers.

End ResourcesTwo.

(** ** Vocabulary of the statements *)

(** The query parameters the specification retains: entries whose value
    is undefined are omitted, every other entry is sent as its name and
    the string form of its value. *)
Definition retained (params : Js.record) : list (string * string) :=
  map (fun entry => (fst entry, Js.String (snd entry)))
      (filter (fun entry => Js.is_defined (snd entry)) params).

(** The state after [lines] have been written to the console. *)
Definition logged {World : Type} (lines : list string) (st : State (World := World))
    : State (World := World) :=
  mkState (world st) (sent st) (console st ++ lines)%list.

(** The requests sent between two states of one run. *)
Definition sent_since {World : Type} (before after : State (World := World))
    (requests : list Request) : Prop :=
  sent after = (sent before ++ requests)%list.

(** A request carries the header [name]. *)
Definition has_header (name : string) (req : Request) : bool :=
  existsb (fun h => fst h =? name) (headers req).

(** The URL of a request has a query parameter called [name]. *)
Definition has_query_key (name : string) (req : Request) : bool :=
  existsb (fun q => fst q =? name) (searchParams (url req)).

(** The endpoint, the parameters and the error label the specification
    gives each tool. *)
Definition endpoint_of (i : Invocation) : string :=
  match i with
  | GetTournaments _ => "tournaments"
  | GetTournamentDetails id => "tournaments/" ++ id ++ "/details"
  | GetTournamentStandings id => "tournaments/" ++ id ++ "/standings"
  | GetTournamentPairings id => "tournaments/" ++ id ++ "/pairings"
  end.

Definition params_of (i : Invocation) : Js.record :=
  match i with
  | GetTournaments args => queryParams args
  | _ => []
  end.

Definition error_label (i : Invocation) : string :=
  match i with
  | GetTournaments _ => "Error fetching tournaments: "
  | GetTournamentDetails _ => "Error fetching tournament details: "
  | GetTournamentStandings _ => "Error fetching tournament standings: "
  | GetTournamentPairings _ => "Error fetching tournament pairings: "
  end.

(** What [part_000] has printed when a tool reaches its request: the
    list tool prints its [game] argument first. *)
Definition printed_before_request (i : Invocation) : list string :=
  match i with
  | GetTournaments args => ["game " ++ Js.String (game args)]
  | _ => []
  end.

(** The five parameters of the list tool under their names. *)
Definition named_params (args : TournamentsParams) : Js.record :=
  [("game", game args); ("format", format args);
   ("organizerId", organizerId args); ("limit", limit args);
   ("page", page args)].

(** The arguments with every falsy value replaced by [undefined]. *)
Definition without_falsy (args : TournamentsParams) : TournamentsParams :=
  let keep v := if Js.truthy v then v else Js.Undefined in
  mkTournamentsParams (keep (game args)) (keep (format args))
    (keep (organizerId args)) (keep (limit args)) (keep (page args)).

(** The text of [s] before its first [sep], or all of [s]. *)
Fixpoint until (sep : ascii) (s : string) : string :=
  match s with
  | EmptyString => EmptyString
  | String c rest => if Ascii.eqb c sep then EmptyString else String c (until sep rest)
  end.

(** A state with the given upstream and empty logs. *)
Definition bare {World : Type} (w : World) : State (World := World) :=
  mkState w [] [].

(** The outcome [run] of a computation started with empty logs, seen
    from a process that had already reached [st]: same result, same
    upstream, the new requests and lines after the old ones. *)
Definition continued {World A : Type} (st : State (World := World))
    (run : Result A * State (World := World)) : Result A * State (World := World) :=
  (fst run,
   mkState (world (snd run))
     (sent st ++ sent (snd run))%list
     (console st ++ console (snd run))%list).

(** A computation that reads nothing but the upstream and only adds to
    the logs. *)
Definition write_only {World A : Type} (m : M (World := World) A) : Prop :=
  forall st, m st = continued st (m (bare (world st))).

(** [`Error fetching from Limitless API: ${error}`] *)
Definition error_line (error : Js.error) : string :=
  "Error fetching from Limitless API: " ++ Js.error_toString error.

(** ** Simulated upstreams

    Parsed bodies are plain text here; the state of an upstream is the
    number of requests it has answered. *)

(** Refuses the credential in the URL with a 401, accepts it in the
    [X-Access-Key] header. *)
Definition header_auth_only (answered : nat) (req : Request)
    : FetchOutcome string * nat :=
  if has_header "X-Access-Key" req
  then (Resolved (mkResponse 200 "OK" (inr "[]")), S answered)
  else (Resolved (mkResponse 401 "Unauthorized" (inr "{}")), S answered).

(** No connection at all: every fetch rejects. *)
Definition unreachable (answered : nat) (req : Request)
    : FetchOutcome string * nat :=
  (Rejected (Js.mkError "TypeError" "fetch failed"), S answered).

(** Answers every request with 200 and an empty list. *)
Definition always_ok (answered : nat) (req : Request)
    : FetchOutcome string * nat :=
  (Resolved (mkResponse 200 "OK" (inr "[]")), S answered).

(** Answers every request with 200 and a page that is not JSON. *)
Definition garbled (answered : nat) (req : Request)
    : FetchOutcome string * nat :=
  (Resolved (mkResponse 200 "OK"
     (inl (Js.mkError "SyntaxError" "Unexpected token < in JSON at position 0"))),
   S answered).

(** A fresh process: nothing sent, nothing printed. *)
Definition fresh : State (World := nat) := mkState 0 [] [].

(** * Properties *)

(** ** The monad and the [try] block *)

Section AttemptFacts.

Context {World Json : Type}.
Variable upstream : World -> Request -> FetchOutcome Json * World.

Lemma logged_nil (st : State (World := World)) : logged [] st = st.
Proof. destruct st; unfold logged; cbn. now rewrite app_nil_r. Qed.

(** One [try] block is one fetch: it sends exactly its request. *)
Lemma attempt_sends_one (req : Request) (st : State) :
  sent_since st (snd (attempt upstream req st)) [req].
Proof.
  destruct req as [u h]. unfold sent_since, attempt, bind, fetch. cbn [url headers].
  destruct (upstream (world st) (mkRequest u h)) as [[e | r] w]; [reflexivity |].
  destruct (ok r); cbn [negb]; [| reflexivity].
  unfold response_json. destruct (json r); reflexivity.
Qed.

(** A rejected fetch is the failure of the block. *)
Lemma attempt_rejected (req : Request) (st : State) (e : Js.error) (w : World) :
  upstream (world st) req = (Rejected e, w) ->
  attempt upstream req st = (Thrown e, mkState w (sent st ++ [req])%list (console st)).
Proof.
  destruct req as [u h]. intros H. unfold attempt, bind, fetch. cbn [url headers].
  rewrite H. reflexivity.
Qed.

(** A response outside 200-299 is logged and thrown as an [Error]. *)
Lemma attempt_not_ok (req : Request) (st : State) (r : Response Json) (w : World) :
  upstream (world st) req = (Resolved r, w) ->
  ok r = false ->
  attempt upstream req st =
    (Thrown (Js.Error (api_request_failed r)),
     mkState w (sent st ++ [req])%list (console st ++ [api_request_failed r])%list).
Proof.
  destruct req as [u h]. intros H Hok. unfold attempt, bind, fetch. cbn [url headers].
  rewrite H, Hok. reflexivity.
Qed.

(** A response in 200-299 gives what [response.json()] gives. *)
Lemma attempt_ok (req : Request) (st : State) (r : Response Json) (w : World) :
  upstream (world st) req = (Resolved r, w) ->
  ok r = true ->
  attempt upstream req st =
    (match json r with inl e => Thrown e | inr data => Returned data end,
     mkState w (sent st ++ [req])%list (console st)).
Proof.
  destruct req as [u h]. intros H Hok. unfold attempt, bind, fetch. cbn [url headers].
  rewrite H, Hok. cbn [negb]. unfold response_json. destruct (json r); reflexivity.
Qed.

End AttemptFacts.

(** ** The two modes of the flagged client *)

Section FlaggedFacts.

Context {World Json : Type}.
Variable upstream : World -> Request -> FetchOutcome Json * World.
Variable validApiKey : string.

#[local] Abbreviation limitlessRequest := (Flagged.limitlessRequest upstream validApiKey).
#[local] Abbreviation prepare := (Flagged.prepare validApiKey).

(** In header mode the catch block logs and rethrows. *)
Lemma limitlessRequest_header (endpoint : string) (params : Js.record) (st : State) :
  limitlessRequest endpoint params true st =
    match attempt upstream (prepare endpoint params true) st with
    | (Returned data, st1) => (Returned data, st1)
    | (Thrown error, st1) =>
        (Thrown error,
         logged ["Error fetching from Limitless API: " ++ Js.error_toString error] st1)
    end.
Proof.
  rewrite Flagged.limitlessRequest_equation_1. unfold try_catch.
  destruct (attempt upstream (prepare endpoint params true) st) as [[data | error] st1];
    reflexivity.
Qed.

(** In query-parameter mode the catch block logs and calls again with
    [useHeaderAuth = true]. *)
Lemma limitlessRequest_query (endpoint : string) (params : Js.record) (st : State) :
  limitlessRequest endpoint params false st =
    match attempt upstream (prepare endpoint params false) st with
    | (Returned data, st1) => (Returned data, st1)
    | (Thrown error, st1) =>
        limitlessRequest endpoint params true
          (logged ["Error fetching from Limitless API: " ++ Js.error_toString error;
                   "Retrying with header authentication..."] st1)
    end.
Proof.
  rewrite Flagged.limitlessRequest_equation_1. unfold try_catch.
  destruct (attempt upstream (prepare endpoint params false) st) as [[data | error] st1];
    [reflexivity |].
  cbn. unfold bind, report, console_write, logged; cbn.
  rewrite <- app_assoc. reflexivity.
Qed.

(** A call in header mode sends one request. *)
Lemma header_mode_sends_one (endpoint : string) (params : Js.record) (st : State) :
  sent_since st (snd (limitlessRequest endpoint params true st))
    [prepare endpoint params true].
Proof.
  rewrite limitlessRequest_header.
  pose proof (attempt_sends_one upstream (prepare endpoint params true) st) as H.
  destruct (attempt upstream (prepare endpoint params true) st) as [[data | error] st1];
    exact H.
Qed.

(** A call in query-parameter mode sends its request, and after a
    failure the header-mode request as well. *)
Lemma query_mode_sends (endpoint : string) (params : Js.record) (st : State) :
  sent_since st (snd (limitlessRequest endpoint params false st))
    (prepare endpoint params false ::
     match fst (attempt upstream (prepare endpoint params false) st) with
     | Returned _ => []
     | Thrown _ => [prepare endpoint params true]
     end).
Proof.
  rewrite limitlessRequest_query.
  pose proof (attempt_sends_one upstream (prepare endpoint params false) st) as H.
  destruct (attempt upstream (prepare endpoint params false) st) as [[data | error] st1];
    cbn [fst snd] in *; [exact H |].
  match goal with
  | |- context [limitlessRequest _ _ true ?s] =>
      pose proof (header_mode_sends_one endpoint params s) as H2
  end.
  unfold sent_since in *. rewrite H2. cbn [logged sent]. rewrite H.
  rewrite <- app_assoc. reflexivity.
Qed.

End FlaggedFacts.

Section ServerTsFacts.

Context {World Json : Type}.
Variable upstream : World -> Request -> FetchOutcome Json * World.
Variable validApiKey : string.

(** The header-only client logs and rethrows. *)
Lemma header_only_run (endpoint : string) (params : Js.record) (st : State) :
  ServerTs.limitlessRequest upstream validApiKey endpoint params st =
    match attempt upstream (ServerTs.prepare validApiKey endpoint params) st with
    | (Returned data, st1) => (Returned data, st1)
    | (Thrown error, st1) =>
        (Thrown error,
         logged ["Error fetching from Limitless API: " ++ Js.error_toString error] st1)
    end.
Proof.
  unfold ServerTs.limitlessRequest, try_catch.
  destruct (attempt upstream (ServerTs.prepare validApiKey endpoint params) st)
    as [[data | error] st1]; reflexivity.
Qed.

Lemma header_only_sends_one (endpoint : string) (params : Js.record) (st : State) :
  sent_since st (snd (ServerTs.limitlessRequest upstream validApiKey endpoint params st))
    [ServerTs.prepare validApiKey endpoint params].
Proof.
  rewrite header_only_run.
  pose proof (attempt_sends_one upstream
                (ServerTs.prepare validApiKey endpoint params) st) as H.
  destruct (attempt upstream (ServerTs.prepare validApiKey endpoint params) st)
    as [[data | error] st1]; exact H.
Qed.

End ServerTsFacts.

(** ** Query parameters *)

Lemma add_query_parameters_address (params : Js.record) (u : URL) :
  address (add_query_parameters params u) = address u.
Proof.
  unfold add_query_parameters, Js.entries. revert u.
  induction params as [| [key value] rest IH]; intros u; cbn [fold_left];
    [reflexivity |].
  rewrite IH. destruct (Js.is_defined value); reflexivity.
Qed.

(** The loop appends the retained parameters, in the order of the record. *)
Lemma add_query_parameters_retained (params : Js.record) (u : URL) :
  searchParams (add_query_parameters params u)
  = (searchParams u ++ retained params)%list.
Proof.
  unfold add_query_parameters, Js.entries, retained. revert u.
  induction params as [| [key value] rest IH]; intros u; cbn [fold_left filter map snd].
  - now rewrite app_nil_r.
  - rewrite IH. destruct (Js.is_defined value); cbn [map fst snd searchParams_append searchParams].
    + rewrite <- app_assoc. reflexivity.
    + reflexivity.
Qed.

Lemma in_retained (params : Js.record) (name text : string) :
  In (name, text) (retained params) <->
  exists v, In (name, v) params /\ v <> Js.Undefined /\ text = Js.String v.
Proof.
  unfold retained. rewrite in_map_iff. split.
  - intros [[k v] [E H]]. cbn in E. inversion E; subst.
    apply filter_In in H as [Hin Hdef]. exists v. repeat split; trivial.
    intros ->. discriminate.
  - intros [v (Hin & Hdef & ->)]. exists (name, v). split; [reflexivity |].
    apply filter_In. split; [exact Hin |]. destruct v; trivial. contradiction.
Qed.

Lemma in_retained_keys (params : Js.record) (name : string) :
  In name (map fst (retained params)) <->
  exists v, In (name, v) params /\ v <> Js.Undefined.
Proof.
  rewrite in_map_iff. split.
  - intros [[k text] [E H]]. cbn in E. subst k.
    apply in_retained in H as [v (Hin & Hdef & _)]. eauto.
  - intros [v [Hin Hdef]]. exists (name, Js.String v). split; [reflexivity |].
    apply in_retained. eauto.
Qed.

Lemma has_query_key_false (name : string) (req : Request) :
  has_query_key name req = false <-> ~ In name (map fst (searchParams (url req))).
Proof.
  unfold has_query_key. split.
  - intros H Hin. apply in_map_iff in Hin as [q [E Hq]].
    assert (existsb (fun q => fst q =? name) (searchParams (url req)) = true) as C.
    { apply existsb_exists. exists q. split; [exact Hq |]. now apply String.eqb_eq. }
    congruence.
  - intros H. destruct (existsb _ _) eqn:E; [| reflexivity].
    apply existsb_exists in E as [q [Hq E]]. apply String.eqb_eq in E.
    exfalso. apply H. apply in_map_iff. eauto.
Qed.

(** ** The fallback policy *)

Section Fallback.

Context {World Json : Type}.
Variable upstream : World -> Request -> FetchOutcome Json * World.
Variable validApiKey : string.

#[local] Abbreviation limitlessRequest := (Flagged.limitlessRequest upstream validApiKey).
#[local] Abbreviation prepare := (Flagged.prepare validApiKey).

(** C1. A call in query-parameter mode whose attempt fails continues as
    the same call (same endpoint, same parameters) in header mode, and
    sends exactly two requests, the second being the header-mode one; a
    call whose attempt fails in header mode throws that failure after its
    single request.  The two-argument client of [src/server.ts] is always
    in header mode and behaves in the same way. *)
Theorem fallback_once_then_propagate (endpoint : string) (params : Js.record)
    (st : State) :
  (forall error st1,
     attempt upstream (prepare endpoint params false) st = (Thrown error, st1) ->
     limitlessRequest endpoint params false st
     = limitlessRequest endpoint params true
         (logged ["Error fetching from Limitless API: " ++ Js.error_toString error;
                  "Retrying with header authentication..."] st1)
     /\ sent_since st (snd (limitlessRequest endpoint params false st))
          [prepare endpoint params false; prepare endpoint params true])
  /\ (forall error st1,
     attempt upstream (prepare endpoint params true) st = (Thrown error, st1) ->
     fst (limitlessRequest endpoint params true st) = Thrown error
     /\ sent_since st (snd (limitlessRequest endpoint params true st))
          [prepare endpoint params true])
  /\ (forall error st1,
     attempt upstream (ServerTs.prepare validApiKey endpoint params) st
     = (Thrown error, st1) ->
     fst (ServerTs.limitlessRequest upstream validApiKey endpoint params st)
     = Thrown error
     /\ sent_since st
          (snd (ServerTs.limitlessRequest upstream validApiKey endpoint params st))
          [ServerTs.prepare validApiKey endpoint params]).
Proof.
  repeat split.
  - rewrite limitlessRequest_query, H. reflexivity.
  - pose proof (query_mode_sends upstream validApiKey endpoint params st) as S.
    rewrite H in S. exact S.
  - rewrite limitlessRequest_header, H. reflexivity.
  - apply header_mode_sends_one.
  - rewrite header_only_run, H. reflexivity.
  - apply header_only_sends_one.
Qed.

End Fallback.

Lemma fallback_once_then_propagate_witness :
  sent_since fresh
    (snd (Flagged.limitlessRequest header_auth_only "secret" "tournaments" [] false fresh))
    [Flagged.prepare "secret" "tournaments" [] false;
     Flagged.prepare "secret" "tournaments" [] true]
  /\ fst (Flagged.limitlessRequest unreachable "secret" "tournaments" [] true fresh)
     = Thrown (Js.mkError "TypeError" "fetch failed")
  /\ fst (ServerTs.limitlessRequest unreachable "secret" "tournaments" [] fresh)
     = Thrown (Js.mkError "TypeError" "fetch failed").
Proof.
  split; [| split].
  - eapply (proj1 (fallback_once_then_propagate header_auth_only "secret"
                     "tournaments" [] fresh)).
    reflexivity.
  - eapply (proj1 (proj2 (fallback_once_then_propagate unreachable "secret"
                            "tournaments" [] fresh))).
    reflexivity.
  - eapply (proj2 (proj2 (fallback_once_then_propagate unreachable "secret"
                            "tournaments" [] fresh))).
    reflexivity.
Defined.

(** ** Bounded number of requests *)

Section Requests.

Context {World Json : Type}.
Variable upstream : World -> Request -> FetchOutcome Json * World.
Variable validApiKey : string.

#[local] Abbreviation limitlessRequest := (Flagged.limitlessRequest upstream validApiKey).
#[local] Abbreviation prepare := (Flagged.prepare validApiKey).

Lemma prepare_query_has_no_header (endpoint : string) (params : Js.record) :
  has_header "X-Access-Key" (prepare endpoint params false) = false.
Proof. reflexivity. Qed.

Lemma prepare_header_search (endpoint : string) (params : Js.record) :
  searchParams (url (prepare endpoint params true)) = retained params.
Proof.
  unfold Flagged.prepare. cbn [url]. now rewrite add_query_parameters_retained.
Qed.

Lemma prepare_query_search (endpoint : string) (params : Js.record) :
  searchParams (url (prepare endpoint params false))
  = (retained params ++ [("key", validApiKey)])%list.
Proof.
  unfold Flagged.prepare. cbn [url searchParams_append searchParams].
  now rewrite add_query_parameters_retained.
Qed.

Lemma retained_keys_subset (params : Js.record) (name : string) :
  In name (map fst (retained params)) -> In name (Js.keys params).
Proof.
  intros H. apply in_retained_keys in H as [v [Hin _]].
  unfold Js.keys. apply in_map_iff. exists (name, v). auto.
Qed.

(** C2. Every call sends at least one and at most two requests, and one
    only when it starts in header mode; it is a total function, so the
    recursion ends.  When the query-parameter attempt fails and the
    header attempt succeeds, the call returns the header attempt's data
    after exactly two requests: the first has no [X-Access-Key] header,
    the second has it and its query is the caller's retained parameters,
    with no [key] unless the caller passed one.  When the header-mode
    attempt fails, the failure is thrown after that one request. *)
Theorem at_most_two_requests (endpoint : string) (params : Js.record)
    (useHeaderAuth : bool) (st : State) :
  (exists requests,
     sent_since st (snd (limitlessRequest endpoint params useHeaderAuth st)) requests
     /\ 1 <= length requests <= (if useHeaderAuth then 1 else 2))
  /\ (forall error st1 data st2,
     attempt upstream (prepare endpoint params false) st = (Thrown error, st1) ->
     attempt upstream (prepare endpoint params true)
       (logged ["Error fetching from Limitless API: " ++ Js.error_toString error;
                "Retrying with header authentication..."] st1)
     = (Returned data, st2) ->
     limitlessRequest endpoint params false st = (Returned data, st2)
     /\ sent_since st st2 [prepare endpoint params false; prepare endpoint params true]
     /\ has_header "X-Access-Key" (prepare endpoint params false) = false
     /\ headers (prepare endpoint params true) = [("X-Access-Key", validApiKey)]
     /\ searchParams (url (prepare endpoint params true)) = retained params
     /\ (~ In "key" (Js.keys params) ->
         has_query_key "key" (prepare endpoint params true) = false))
  /\ (forall error st1,
     attempt upstream (prepare endpoint params true) st = (Thrown error, st1) ->
     fst (limitlessRequest endpoint params true st) = Thrown error
     /\ sent_since st (snd (limitlessRequest endpoint params true st))
          [prepare endpoint params true]).
Proof.
  split; [| split].
  - destruct useHeaderAuth.
    + exists [prepare endpoint params true]. split.
      * apply header_mode_sends_one.
      * cbn. lia.
    + eexists. split.
      * apply query_mode_sends.
      * destruct (fst (attempt upstream (prepare endpoint params false) st));
          cbn; lia.
  - intros error st1 data st2 Hq Hh.
    assert (limitlessRequest endpoint params false st = (Returned data, st2)) as Run.
    { rewrite limitlessRequest_query, Hq, limitlessRequest_header, Hh. reflexivity. }
    split; [exact Run |]. split.
    + pose proof (query_mode_sends upstream validApiKey endpoint params st) as S.
      rewrite Run, Hq in S. exact S.
    + split; [reflexivity |]. split; [reflexivity |].
      split; [apply prepare_header_search |].
      intros Hkey. apply has_query_key_false. rewrite prepare_header_search.
      intros Hin. apply Hkey. now apply retained_keys_subset.
  - intros error st1 Hh. split.
    + rewrite limitlessRequest_header, Hh. reflexivity.
    + apply header_mode_sends_one.
Qed.

End Requests.

Lemma at_most_two_requests_witness :
  Flagged.limitlessRequest header_auth_only "secret" "tournaments"
    [("game", Js.Str "VGC")] false fresh
  = (Returned "[]",
     mkState 2
       [mkRequest (mkURL "https://play.limitlesstcg.com/api/tournaments"
                     [("game", "VGC"); ("key", "secret")]) [];
        mkRequest (mkURL "https://play.limitlesstcg.com/api/tournaments"
                     [("game", "VGC")]) [("X-Access-Key", "secret")]]
       ["API request failed: 401 Unauthorized";
        "Error fetching from Limitless API: Error: API request failed: 401 Unauthorized";
        "Retrying with header authentication..."])
  /\ has_query_key "key"
       (Flagged.prepare "secret" "tournaments" [("game", Js.Str "VGC")] true) = false
  /\ fst (Flagged.limitlessRequest unreachable "secret" "tournaments"
            [("game", Js.Str "VGC")] true fresh)
     = Thrown (Js.mkError "TypeError" "fetch failed").
Proof.
  pose proof (at_most_two_requests header_auth_only "secret" "tournaments"
                [("game", Js.Str "VGC")] false fresh) as [_ [Recover _]].
  pose proof (at_most_two_requests unreachable "secret" "tournaments"
                [("game", Js.Str "VGC")] true fresh) as [_ [_ Propagate]].
  split; [| split].
  - eapply Recover; reflexivity.
  - eapply Recover; [reflexivity | reflexivity |].
    cbn. intros [H | []]. discriminate H.
  - eapply Propagate. reflexivity.
Defined.

(** ** Where the credential travels, and what the URL carries *)

Section Credential.

Context {World Json : Type}.
Variable upstream : World -> Request -> FetchOutcome Json * World.
Variable validApiKey : string.

#[local] Abbreviation limitlessRequest := (Flagged.limitlessRequest upstream validApiKey).
#[local] Abbreviation prepare := (Flagged.prepare validApiKey).

(** The first request of a call is the one prepared for its mode. *)
Lemma first_request (endpoint : string) (params : Js.record)
    (useHeaderAuth : bool) (st : State) :
  exists later,
    sent_since st (snd (limitlessRequest endpoint params useHeaderAuth st))
      (prepare endpoint params useHeaderAuth :: later).
Proof.
  destruct useHeaderAuth; eexists.
  - apply header_mode_sends_one.
  - apply query_mode_sends.
Qed.

(** C3. In query-parameter mode the query of the URL is the retained
    parameters followed by [key=<credential>] and there is no header; in
    header mode the only header is [X-Access-Key: <credential>] and the
    query is the retained parameters alone.  Address and retained
    parameters are the same in both modes, and the request a call sends
    first is the one of its mode.  The client of [src/server.ts] builds
    the header-mode request. *)
Theorem credential_by_mode (endpoint : string) (params : Js.record) :
  let by_query := prepare endpoint params false in
  let by_header := prepare endpoint params true in
  searchParams (url by_query) = (retained params ++ [("key", validApiKey)])%list
  /\ headers by_query = []
  /\ has_header "X-Access-Key" by_query = false
  /\ searchParams (url by_header) = retained params
  /\ headers by_header = [("X-Access-Key", validApiKey)]
  /\ address (url by_query) = address (url by_header)
  /\ (forall useHeaderAuth st, exists later,
        sent_since st (snd (limitlessRequest endpoint params useHeaderAuth st))
          (prepare endpoint params useHeaderAuth :: later))
  /\ searchParams (url (ServerTs.prepare validApiKey endpoint params))
     = retained params
  /\ headers (ServerTs.prepare validApiKey endpoint params)
     = [("X-Access-Key", validApiKey)].
Proof.
  cbv zeta.
  split; [apply prepare_query_search |].
  split; [reflexivity |].
  split; [reflexivity |].
  split; [apply prepare_header_search |].
  split; [reflexivity |].
  split; [reflexivity |].
  split; [intros useHeaderAuth st; apply first_request |].
  split; [| reflexivity].
  unfold ServerTs.prepare. cbn [url]. now rewrite add_query_parameters_retained.
Qed.

(** C4. The query of the request URL is exactly the retained parameters
    (followed by the credential in query-parameter mode): a name is in
    the URL if and only if the record gives it a value other than
    undefined, each such entry appears as its name with [String(value)],
    and a name whose only value is undefined is absent.  The same holds
    for the client of [src/server.ts]. *)
Theorem undefined_parameters_skipped (endpoint : string) (params : Js.record) :
  searchParams (url (prepare endpoint params true)) = retained params
  /\ searchParams (url (prepare endpoint params false))
     = (retained params ++ [("key", validApiKey)])%list
  /\ searchParams (url (ServerTs.prepare validApiKey endpoint params))
     = retained params
  /\ (forall name text,
        In (name, text) (retained params) <->
        exists v, In (name, v) params /\ v <> Js.Undefined /\ text = Js.String v)
  /\ (forall name,
        In name (map fst (retained params)) <->
        exists v, In (name, v) params /\ v <> Js.Undefined)
  /\ (forall name,
        NoDup (Js.keys params) ->
        In (name, Js.Undefined) params ->
        has_query_key name (prepare endpoint params true) = false).
Proof.
  split; [apply prepare_header_search |].
  split; [apply prepare_query_search |].
  split; [unfold ServerTs.prepare; cbn [url];
          now rewrite add_query_parameters_retained |].
  split; [intros; apply in_retained |].
  split; [intros; apply in_retained_keys |].
  intros name Hnodup Hundef. apply has_query_key_false.
  rewrite prepare_header_search. intros Hin.
  apply in_retained_keys in Hin as [v [Hv Hdef]].
  apply Hdef. clear Hdef.
  unfold Js.keys in Hnodup.
  induction params as [| [k w] rest IH]; [contradiction |].
  cbn [map fst] in Hnodup. inversion Hnodup as [| ? ? Hfresh Hrest]; subst.
  destruct Hv as [Ev | Hv], Hundef as [Eu | Hundef].
  - congruence.
  - inversion Ev; subst. exfalso. apply Hfresh.
    apply in_map_iff. exists (name, Js.Undefined). auto.
  - inversion Eu; subst. exfalso. apply Hfresh.
    apply in_map_iff. exists (name, v). auto.
  - now apply IH.
Qed.

End Credential.

Lemma undefined_parameters_skipped_witness :
  has_query_key "format"
    (Flagged.prepare "secret" "tournaments"
       [("game", Js.Str "VGC"); ("format", Js.Undefined); ("limit", Js.Number 10)]
       true) = false
  /\ searchParams (url (Flagged.prepare "secret" "tournaments"
       [("game", Js.Str "VGC"); ("format", Js.Undefined); ("limit", Js.Number 10)]
       true)) = [("game", "VGC"); ("limit", "10")].
Proof.
  pose proof (undefined_parameters_skipped "secret" "tournaments"
     [("game", Js.Str "VGC"); ("format", Js.Undefined); ("limit", Js.Number 10)])
    as (Hsearch & _ & _ & _ & _ & Habsent).
  split.
  - apply Habsent.
    + cbn. repeat constructor; cbn; intuition discriminate.
    + cbn. auto.
  - rewrite Hsearch. reflexivity.
Defined.

(** ** The endpoint path *)

Section Endpoint.

Variable validApiKey : string.

(** The flagged client hands [new URL] the base, a separator and the
    cleaned endpoint, in either mode. *)
Lemma flagged_address (endpoint : string) (params : Js.record)
    (useHeaderAuth : bool) :
  address (url (Flagged.prepare validApiKey endpoint params useHeaderAuth))
  = API_BASE_URL ++ "/" ++ Flagged.cleanEndpoint endpoint.
Proof.
  unfold Flagged.prepare. destruct useHeaderAuth;
    cbn [url searchParams_append address];
    now rewrite add_query_parameters_address.
Qed.

(** The client of [src/server.ts] hands [new URL] the base, a separator
    and the endpoint. *)
Lemma server_ts_address (endpoint : string) (params : Js.record) :
  address (url (ServerTs.prepare validApiKey endpoint params))
  = API_BASE_URL ++ "/" ++ endpoint.
Proof.
  unfold ServerTs.prepare. cbn [url]. now rewrite add_query_parameters_address.
Qed.

(** C5, as the code has it.  The statement is about the text the client
    hands to [new URL], which is all the client decides of the path.  The
    client with the authentication flag writes the base, one separator
    and the endpoint less one leading separator: [rest] for [/rest], and
    the endpoint itself when it does not start with a separator.  The
    two-argument client of [src/server.ts] strips nothing: it writes the
    base, one separator and the endpoint, leading separator included. *)
Theorem leading_separator_stripped_once (endpoint rest : string)
    (params : Js.record) (useHeaderAuth : bool) :
  address (url (Flagged.prepare validApiKey ("/" ++ rest) params useHeaderAuth))
  = API_BASE_URL ++ "/" ++ rest
  /\ (Js.startsWith "/" endpoint = false ->
      address (url (Flagged.prepare validApiKey endpoint params useHeaderAuth))
      = API_BASE_URL ++ "/" ++ endpoint)
  /\ address (url (ServerTs.prepare validApiKey endpoint params))
     = API_BASE_URL ++ "/" ++ endpoint
  /\ address (url (ServerTs.prepare validApiKey ("/" ++ rest) params))
     = API_BASE_URL ++ "//" ++ rest.
Proof.
  split; [| split; [| split]].
  - rewrite flagged_address. unfold Flagged.cleanEndpoint, Js.startsWith.
    cbn. destruct rest; reflexivity.
  - intros H. rewrite flagged_address. unfold Flagged.cleanEndpoint.
    now rewrite H.
  - apply server_ts_address.
  - rewrite server_ts_address. reflexivity.
Qed.

End Endpoint.

Lemma leading_separator_stripped_once_witness :
  address (url (Flagged.prepare "secret" "//tournaments" [] false))
  = "https://play.limitlesstcg.com/api//tournaments"
  /\ address (url (Flagged.prepare "secret" "tournaments/123/standings" [] true))
     = "https://play.limitlesstcg.com/api/tournaments/123/standings".
Proof.
  split.
  - apply (proj1 (leading_separator_stripped_once "secret" "" "/tournaments" [] false)).
  - apply (proj1 (proj2 (leading_separator_stripped_once "secret"
                           "tournaments/123/standings" "" [] true))).
    reflexivity.
Defined.

(** C5, as the claim has it, fails on [src/server.ts]: given
    [/tournaments] its client hands [new URL] the address ending in
    [/api//tournaments], separator included, where the claim expects the
    one ending in [/api/tournaments], which is what the flagged client
    writes. *)
Lemma server_ts_keeps_leading_separator :
  address (url (ServerTs.prepare "secret" "/tournaments" []))
  = "https://play.limitlesstcg.com/api//tournaments"
  /\ address (url (ServerTs.prepare "secret" "/tournaments" []))
     <> "https://play.limitlesstcg.com/api/tournaments"
  /\ address (url (Flagged.prepare "secret" "/tournaments" [] true))
     = "https://play.limitlesstcg.com/api/tournaments".
Proof.
  split; [reflexivity |]. split; [| reflexivity].
  cbv. discriminate.
Qed.

(** ** Responses *)

Section Responses.

Context {World Json : Type}.
Variable upstream : World -> Request -> FetchOutcome Json * World.
Variable validApiKey : string.

(** [response.ok] is false exactly outside 200-299. *)
Lemma not_ok_iff (r : Response Json) :
  ok r = false <-> (status r < 200 \/ 299 < status r)%Z.
Proof.
  unfold ok. rewrite andb_false_iff, !Z.leb_gt. reflexivity.
Qed.

(** C6. When the response to a request has a status outside 200-299 the
    [try] block fails, in either mode, with the [Error] whose message is
    [API request failed: <status> <statusText>]; in header mode, and in
    the client of [src/server.ts], that is the error the caller gets.
    When the status is in 200-299 and the body parses, the parsed body is
    the result of the call, in both modes. *)
Theorem response_decides (req : Request) (st : State) (r : Response Json)
    (w : World) :
  upstream (world st) req = (Resolved r, w) ->
  (ok r = false ->
     fst (attempt upstream req st)
     = Thrown (Js.Error ("API request failed: " ++ Js.number_toString (status r)
                         ++ " " ++ statusText r))
     /\ (forall endpoint params,
           req = Flagged.prepare validApiKey endpoint params true ->
           fst (Flagged.limitlessRequest upstream validApiKey endpoint params true st)
           = Thrown (Js.Error (api_request_failed r)))
     /\ (forall endpoint params,
           req = ServerTs.prepare validApiKey endpoint params ->
           fst (ServerTs.limitlessRequest upstream validApiKey endpoint params st)
           = Thrown (Js.Error (api_request_failed r))))
  /\ (forall data,
        ok r = true -> json r = inr data ->
        fst (attempt upstream req st) = Returned data
        /\ (forall endpoint params useHeaderAuth,
              req = Flagged.prepare validApiKey endpoint params useHeaderAuth ->
              fst (Flagged.limitlessRequest upstream validApiKey endpoint params
                     useHeaderAuth st) = Returned data)
        /\ (forall endpoint params,
              req = ServerTs.prepare validApiKey endpoint params ->
              fst (ServerTs.limitlessRequest upstream validApiKey endpoint params st)
              = Returned data)).
Proof.
  intros Hup. split.
  - intros Hok. pose proof (attempt_not_ok upstream req st r w Hup Hok) as Run.
    split; [now rewrite Run |]. split.
    + intros endpoint params ->. rewrite limitlessRequest_header, Run. reflexivity.
    + intros endpoint params ->. rewrite header_only_run, Run. reflexivity.
  - intros data Hok Hjson.
    pose proof (attempt_ok upstream req st r w Hup Hok) as Run. rewrite Hjson in Run.
    split; [now rewrite Run |]. split.
    + intros endpoint params [|] ->.
      * rewrite limitlessRequest_header, Run. reflexivity.
      * rewrite limitlessRequest_query, Run. reflexivity.
    + intros endpoint params ->. rewrite header_only_run, Run. reflexivity.
Qed.

End Responses.

Lemma response_decides_witness :
  fst (Flagged.limitlessRequest
         (fun (w : nat) (_ : Request) =>
            (Resolved (mkResponse 404 "Not Found" (inr "{}")), S w))
         "secret" "tournaments/none/details" [] true fresh)
  = Thrown (Js.Error "API request failed: 404 Not Found")
  /\ fst (Flagged.limitlessRequest always_ok "secret" "tournaments" [] false fresh)
     = Returned "[]".
Proof.
  pose proof (response_decides
                (fun (w : nat) (_ : Request) =>
                   (Resolved (mkResponse 404 "Not Found" (inr "{}")), S w))
                "secret" (Flagged.prepare "secret" "tournaments/none/details" [] true)
                fresh (mkResponse 404 "Not Found" (inr "{}")) 1 eq_refl)
    as [Failure _].
  pose proof (response_decides always_ok "secret"
                (Flagged.prepare "secret" "tournaments" [] false)
                fresh (mkResponse 200 "OK" (inr "[]")) 1 eq_refl)
    as [_ Success].
  split.
  - destruct (Failure eq_refl) as (_ & Flagged_call & _).
    apply (Flagged_call "tournaments/none/details" []). reflexivity.
  - destruct (Success "[]" eq_refl eq_refl) as (_ & Flagged_call & _).
    apply (Flagged_call "tournaments" [] false). reflexivity.
Defined.

(** ** The tool boundary *)

Section Boundary.

Context {World Json : Type}.
Variable upstream : World -> Request -> FetchOutcome Json * World.
Variable validApiKey : string.
Variable JSON_stringify : Json -> string.
Variable JSON_stringify_pretty : Json -> string.
Variable name_or : Json -> string -> Js.error + string.

#[local] Abbreviation flagged_tool :=
  (Flagged.call_tool upstream validApiKey JSON_stringify_pretty name_or).
#[local] Abbreviation server_ts_tool :=
  (ServerTs.call_tool upstream validApiKey JSON_stringify).

(** The tools of [part_000] run their request after their printing. *)
Lemma flagged_tool_run (i : Invocation) (st : State) :
  exists envelope st1,
    flagged_tool i st = (Returned envelope, st1)
    /\ forall error,
         fst (Flagged.limitlessRequest upstream validApiKey (endpoint_of i)
                (params_of i) false (logged (printed_before_request i) st))
         = Thrown error ->
         envelope = failure (error_label i ++ Js.error_toString error).
Proof.
  destruct i as [args | id | id | id];
    cbn [Flagged.call_tool endpoint_of params_of error_label
         printed_before_request];
    rewrite ?logged_nil;
    unfold Flagged.get_tournaments, Flagged.get_tournament_details,
      Flagged.get_tournament_standings, Flagged.get_tournament_pairings,
      try_catch, bind, ret, throw, console_write, logged.
  - destruct (Flagged.limitlessRequest _ _ _ _ _ _) as [[data | e] st1];
      cbn [fst]; do 2 eexists; (split; [reflexivity |]);
      intros error H; [discriminate | now inversion H].
  - destruct (Flagged.limitlessRequest _ _ _ _ _ _) as [[data | e] st1];
      cbn [fst].
    + destruct (name_or data id); do 2 eexists; (split; [reflexivity |]);
        intros error H; discriminate.
    + do 2 eexists. split; [reflexivity |]. intros error H. now inversion H.
  - destruct (Flagged.limitlessRequest _ _ _ _ _ _) as [[data | e] st1];
      cbn [fst]; do 2 eexists; (split; [reflexivity |]);
      intros error H; [discriminate | now inversion H].
  - destruct (Flagged.limitlessRequest _ _ _ _ _ _) as [[data | e] st1];
      cbn [fst]; do 2 eexists; (split; [reflexivity |]);
      intros error H; [discriminate | now inversion H].
Qed.

Lemma server_ts_tool_run (i : Invocation) (st : State) :
  exists envelope st1,
    server_ts_tool i st = (Returned envelope, st1)
    /\ forall error,
         fst (ServerTs.limitlessRequest upstream validApiKey (endpoint_of i)
                (params_of i) st) = Thrown error ->
         envelope = failure (error_label i ++ Js.error_toString error).
Proof.
  destruct i as [args | id | id | id];
    cbn [ServerTs.call_tool endpoint_of params_of error_label];
    unfold ServerTs.get_tournaments, ServerTs.get_tournament_details,
      ServerTs.get_tournament_standings, ServerTs.get_tournament_pairings,
      try_catch, bind, ret;
    destruct (ServerTs.limitlessRequest _ _ _ _ _) as [[data | e] st1];
    cbn [fst]; do 2 eexists; (split; [reflexivity |]);
    intros error H; try discriminate; now inversion H.
Qed.

(** The resource handlers of [part_001] let the failure through. *)
Lemma resource_failure_propagates (uri_href : string) (st : State)
    (error : Js.error) :
  fst (Flagged.limitlessRequest upstream validApiKey "tournaments" [] false st)
  = Thrown error ->
  fst (Resources.tournaments upstream validApiKey JSON_stringify_pretty uri_href st)
  = Thrown error.
Proof.
  unfold Resources.tournaments, bind.
  destruct (Flagged.limitlessRequest _ _ _ _ _ _) as [[data | e] st1]; cbn [fst];
    intros H; [discriminate | now inversion H].
Qed.

(** C7, as the code has it.  Where the operations are registered as
    tools ([src/server.ts] and [part_000]), every invocation returns an
    envelope and never throws; when its request fails, the envelope has
    the error flag set and one text block, the tool's label followed by
    the failure.  Where they are registered as resources ([part_001]),
    the handler has no catch and the failure of the request is the
    failure of the handler. *)
Theorem tool_failures_become_envelopes (i : Invocation) (st : State) :
  (exists envelope st1,
     flagged_tool i st = (Returned envelope, st1)
     /\ forall error,
          fst (Flagged.limitlessRequest upstream validApiKey (endpoint_of i)
                 (params_of i) false (logged (printed_before_request i) st))
          = Thrown error ->
          envelope
          = mkCallToolResult (Some true)
              [mkTextContent "text" (error_label i ++ Js.error_toString error)])
  /\ (exists envelope st1,
     server_ts_tool i st = (Returned envelope, st1)
     /\ forall error,
          fst (ServerTs.limitlessRequest upstream validApiKey (endpoint_of i)
                 (params_of i) st) = Thrown error ->
          envelope
          = mkCallToolResult (Some true)
              [mkTextContent "text" (error_label i ++ Js.error_toString error)])
  /\ (forall uri_href error,
     fst (Flagged.limitlessRequest upstream validApiKey "tournaments" [] false st)
     = Thrown error ->
     fst (Resources.tournaments upstream validApiKey JSON_stringify_pretty
            uri_href st) = Thrown error).
Proof.
  split; [apply flagged_tool_run |].
  split; [apply server_ts_tool_run |].
  intros uri_href error. apply resource_failure_propagates.
Qed.

End Boundary.

Lemma tool_failures_become_envelopes_witness :
  fst (Flagged.call_tool unreachable "secret" (fun body => body)
         (fun _ id => inr id) (GetTournamentStandings "123") fresh)
  = Returned (mkCallToolResult (Some true)
      [mkTextContent "text"
         "Error fetching tournament standings: TypeError: fetch failed"])
  /\ fst (Resources.tournaments unreachable "secret" (fun body => body)
            "limitless://tournaments" fresh)
     = Thrown (Js.mkError "TypeError" "fetch failed").
Proof.
  pose proof (tool_failures_become_envelopes unreachable "secret"
                (fun body => body) (fun body => body) (fun _ id => inr id)
                (GetTournamentStandings "123") fresh)
    as ((envelope & st1 & Run & Flagged_failure) & _ & Resource).
  split.
  - rewrite Run. cbn [fst]. f_equal.
    apply (Flagged_failure (Js.mkError "TypeError" "fetch failed")). reflexivity.
  - apply Resource. reflexivity.
Defined.

(** C7, as the claim has it, fails on [part_001]: with the upstream out
    of reach the tournaments handler throws the failure of its request
    and returns nothing, so no envelope with an error flag is produced. *)
Lemma resource_handler_throws :
  Resources.tournaments unreachable "secret" (fun body => body)
    "limitless://tournaments" fresh
  = (Thrown (Js.mkError "TypeError" "fetch failed"),
     mkState 2
       [Flagged.prepare "secret" "tournaments" [] false;
        Flagged.prepare "secret" "tournaments" [] true]
       ["Error fetching from Limitless API: TypeError: fetch failed";
        "Retrying with header authentication...";
        "Error fetching from Limitless API: TypeError: fetch failed"])
  /\ ~ exists contents,
         fst (Resources.tournaments unreachable "secret" (fun body => body)
                "limitless://tournaments" fresh) = Returned contents.
Proof.
  split; [reflexivity |].
  intros [contents H]. discriminate H.
Qed.

(** ** The list tool and its query parameters *)

(** The record the five [if] statements build holds the truthy
    parameters, in the order of the statements. *)
Lemma queryParams_truthy (args : TournamentsParams) :
  queryParams args
  = filter (fun entry => Js.truthy (snd entry)) (named_params args).
Proof.
  unfold queryParams, named_params. cbn [filter snd].
  destruct (Js.truthy (game args)), (Js.truthy (format args)),
    (Js.truthy (organizerId args)), (Js.truthy (limit args)),
    (Js.truthy (page args)); reflexivity.
Qed.

Lemma truthy_is_defined (v : Js.value) : Js.truthy v = true -> Js.is_defined v = true.
Proof. destruct v; cbn; congruence. Qed.

(** Every entry of the record is defined, so the URL retains them all. *)
Lemma retained_queryParams (args : TournamentsParams) :
  retained (queryParams args)
  = map (fun entry => (fst entry, Js.String (snd entry))) (queryParams args).
Proof.
  unfold retained. f_equal. rewrite queryParams_truthy.
  induction (named_params args) as [| [name v] rest IH]; [reflexivity |].
  cbn [filter snd]. destruct (Js.truthy v) eqn:T; [| exact IH].
  cbn [filter snd]. rewrite (truthy_is_defined v T). now rewrite IH.
Qed.

Section ListTool.

Context {World Json : Type}.
Variable upstream : World -> Request -> FetchOutcome Json * World.
Variable validApiKey : string.
Variable JSON_stringify : Json -> string.
Variable JSON_stringify_pretty : Json -> string.
Variable name_or : Json -> string -> Js.error + string.

(** The list tool of [src/server.ts] sends the one request of its call. *)
Lemma server_ts_list_sends (args : TournamentsParams) (st : State) :
  sent_since st
    (snd (ServerTs.get_tournaments upstream validApiKey JSON_stringify args st))
    [ServerTs.prepare validApiKey "tournaments" (queryParams args)].
Proof.
  pose proof (header_only_sends_one upstream validApiKey "tournaments"
                (queryParams args) st) as H.
  unfold ServerTs.get_tournaments, try_catch, bind, ret.
  destruct (ServerTs.limitlessRequest _ _ _ _ _) as [[data | e] st1]; exact H.
Qed.

(** The list tool of [part_000] sends the requests of its call: one, or
    two when the first attempt fails. *)
Lemma flagged_list_sends (args : TournamentsParams) (st : State) :
  sent_since st
    (snd (Flagged.get_tournaments upstream validApiKey JSON_stringify_pretty args st))
    (Flagged.prepare validApiKey "tournaments" (queryParams args) false ::
     match fst (attempt upstream
                  (Flagged.prepare validApiKey "tournaments" (queryParams args) false)
                  (logged ["game " ++ Js.String (game args)] st)) with
     | Returned _ => []
     | Thrown _ => [Flagged.prepare validApiKey "tournaments" (queryParams args) true]
     end).
Proof.
  pose proof (query_mode_sends upstream validApiKey "tournaments"
                (queryParams args) (logged ["game " ++ Js.String (game args)] st)) as H.
  unfold Flagged.get_tournaments, try_catch, bind, ret, console_write.
  fold (logged ["game " ++ Js.String (game args)] st).
  destruct (Flagged.limitlessRequest _ _ _ _ _ _) as [[data | e] st1]; exact H.
Qed.

(** C8, as the code has it.  For [{game: "VGC", limit: 10}] the list
    tool is one call of the client, with the endpoint [tournaments] and
    the record [{game: "VGC", limit: 10}], wrapped into an envelope.  In
    [src/server.ts] that call is exactly one request.  In [part_000] it
    is one request when the attempt in query-parameter mode succeeds and
    two when it fails, the second being the retry in header mode.  Every
    request sent is addressed to [tournaments] under the base, has
    [game=VGC] and [limit=10] in its query, and no [format],
    [organizerId] or [page]. *)
Theorem list_vgc_limit_10 (st : State) :
  let args := mkTournamentsParams (Js.Str "VGC") Js.Undefined Js.Undefined
                (Js.Number 10) Js.Undefined in
  let by_query :=
    mkRequest (mkURL "https://play.limitlesstcg.com/api/tournaments"
                 [("game", "VGC"); ("limit", "10"); ("key", validApiKey)]) [] in
  let by_header :=
    mkRequest (mkURL "https://play.limitlesstcg.com/api/tournaments"
                 [("game", "VGC"); ("limit", "10")])
      [("X-Access-Key", validApiKey)] in
  let wanted (req : Request) :=
    address (url req) = "https://play.limitlesstcg.com/api/tournaments"
    /\ In ("game", "VGC") (searchParams (url req))
    /\ In ("limit", "10") (searchParams (url req))
    /\ has_query_key "format" req = false
    /\ has_query_key "organizerId" req = false
    /\ has_query_key "page" req = false in
  queryParams args = [("game", Js.Str "VGC"); ("limit", Js.Number 10)]
  /\ ServerTs.get_tournaments upstream validApiKey JSON_stringify args st
     = (let (outcome, st1) :=
          ServerTs.limitlessRequest upstream validApiKey "tournaments"
            [("game", Js.Str "VGC"); ("limit", Js.Number 10)] st in
        (Returned
           match outcome with
           | Returned tournaments => success (JSON_stringify tournaments)
           | Thrown error =>
               failure ("Error fetching tournaments: " ++ Js.error_toString error)
           end, st1))
  /\ Flagged.get_tournaments upstream validApiKey JSON_stringify_pretty args st
     = (let (outcome, st1) :=
          Flagged.limitlessRequest upstream validApiKey "tournaments"
            [("game", Js.Str "VGC"); ("limit", Js.Number 10)] false
            (logged ["game VGC"] st) in
        (Returned
           match outcome with
           | Returned tournaments =>
               success ("# Limitless Tournaments - VGC (limited to 10)"
                        ++ newline ++ newline ++ JSON_stringify_pretty tournaments)
           | Thrown error =>
               failure ("Error fetching tournaments: " ++ Js.error_toString error)
           end, st1))
  /\ sent_since st
       (snd (ServerTs.get_tournaments upstream validApiKey JSON_stringify args st))
       [by_header]
  /\ sent_since st
       (snd (Flagged.get_tournaments upstream validApiKey JSON_stringify_pretty
               args st))
       (by_query ::
        match fst (attempt upstream by_query (logged ["game VGC"] st)) with
        | Returned _ => []
        | Thrown _ => [by_header]
        end)
  /\ wanted by_query
  /\ wanted by_header.
Proof.
  cbv zeta.
  split; [reflexivity |].
  split.
  { unfold ServerTs.get_tournaments, try_catch, bind, ret.
    change (queryParams (mkTournamentsParams (Js.Str "VGC") Js.Undefined
              Js.Undefined (Js.Number 10) Js.Undefined))
      with [("game", Js.Str "VGC"); ("limit", Js.Number 10)].
    destruct (ServerTs.limitlessRequest _ _ _ _ _) as [[data | e] st1];
      reflexivity. }
  split.
  { unfold Flagged.get_tournaments, try_catch, bind, ret, console_write.
    change (queryParams (mkTournamentsParams (Js.Str "VGC") Js.Undefined
              Js.Undefined (Js.Number 10) Js.Undefined))
      with [("game", Js.Str "VGC"); ("limit", Js.Number 10)].
    fold (logged ["game " ++ Js.String (Js.Str "VGC")] st).
    change ("game " ++ Js.String (Js.Str "VGC")) with "game VGC".
    destruct (Flagged.limitlessRequest _ _ _ _ _ _) as [[data | e] st1];
      reflexivity. }
  split; [apply (server_ts_list_sends
                   (mkTournamentsParams (Js.Str "VGC") Js.Undefined Js.Undefined
                      (Js.Number 10) Js.Undefined)) |].
  split; [apply (flagged_list_sends
                   (mkTournamentsParams (Js.Str "VGC") Js.Undefined Js.Undefined
                      (Js.Number 10) Js.Undefined)) |].
  split; cbn; intuition.
Qed.

End ListTool.

(** C8, as the claim has it, fails on [part_000]: when the upstream
    refuses the credential in the URL, the list tool called with
    [{game: "VGC", limit: 10}] sends two requests, not exactly one. *)
Lemma list_tool_sends_two_requests :
  let args := mkTournamentsParams (Js.Str "VGC") Js.Undefined Js.Undefined
                (Js.Number 10) Js.Undefined in
  let run := Flagged.get_tournaments header_auth_only "secret" (fun body => body)
               args fresh in
  sent (snd run)
  = [mkRequest (mkURL "https://play.limitlesstcg.com/api/tournaments"
                  [("game", "VGC"); ("limit", "10"); ("key", "secret")]) [];
     mkRequest (mkURL "https://play.limitlesstcg.com/api/tournaments"
                  [("game", "VGC"); ("limit", "10")]) [("X-Access-Key", "secret")]]
  /\ length (sent (snd run)) <> 1
  /\ fst run
     = Returned (success ("# Limitless Tournaments - VGC (limited to 10)"
                          ++ newline ++ newline ++ "[]")).
Proof.
  cbv zeta. split; [reflexivity |]. split; [| reflexivity].
  cbn. discriminate.
Qed.

(** ** Falsy parameters *)

Lemma keep_truthy (v : Js.value) :
  Js.truthy (if Js.truthy v then v else Js.Undefined) = Js.truthy v.
Proof. destruct (Js.truthy v) eqn:T; [exact T | reflexivity]. Qed.

Section Falsy.

Context {World Json : Type}.
Variable upstream : World -> Request -> FetchOutcome Json * World.
Variable validApiKey : string.
Variable JSON_stringify : Json -> string.
Variable JSON_stringify_pretty : Json -> string.

(** A parameter name missing from the record is missing from every
    request the list tools send. *)
Lemma absent_from_requests (args : TournamentsParams) (name : string)
    (st : State) :
  name <> "key" ->
  ~ In name (Js.keys (queryParams args)) ->
  (exists requests,
     sent_since st
       (snd (Flagged.get_tournaments upstream validApiKey JSON_stringify_pretty
               args st)) requests
     /\ Forall (fun req => has_query_key name req = false) requests)
  /\ (exists requests,
     sent_since st
       (snd (ServerTs.get_tournaments upstream validApiKey JSON_stringify args st))
       requests
     /\ Forall (fun req => has_query_key name req = false) requests).
Proof.
  intros Hname Habsent.
  assert (~ In name (map fst (retained (queryParams args)))) as Hretained.
  { intros H. apply Habsent. now apply retained_keys_subset. }
  assert (has_query_key name
            (Flagged.prepare validApiKey "tournaments" (queryParams args) true)
          = false) as Hheader.
  { apply has_query_key_false. now rewrite prepare_header_search. }
  assert (has_query_key name
            (Flagged.prepare validApiKey "tournaments" (queryParams args) false)
          = false) as Hquery.
  { apply has_query_key_false. rewrite prepare_query_search, map_app, in_app_iff.
    intros [H | [H | []]]; [now apply Hretained | cbn in H; congruence]. }
  split.
  - eexists. split; [apply flagged_list_sends |].
    destruct (fst (attempt upstream _ _)); repeat constructor; assumption.
  - eexists. split; [apply server_ts_list_sends |].
    repeat constructor. apply has_query_key_false.
    unfold ServerTs.prepare. cbn [url]. now rewrite add_query_parameters_retained.
Qed.

(** C10. The list tool tests its parameters for truthiness: the record
    it hands to the client holds exactly the truthy ones, so a parameter
    that is [0], the empty string, [null] or [undefined] has no key in
    the record nor in any request sent, and the title is the one of the
    arguments with the falsy values left undefined. *)
Theorem falsy_parameters_omitted (args : TournamentsParams) (name : string)
    (v : Js.value) (st : State) :
  In (name, v) (named_params args) ->
  Js.truthy v = false ->
  ~ In name (Js.keys (queryParams args))
  /\ (exists requests,
        sent_since st
          (snd (Flagged.get_tournaments upstream validApiKey JSON_stringify_pretty
                  args st)) requests
        /\ Forall (fun req => has_query_key name req = false) requests)
  /\ (exists requests,
        sent_since st
          (snd (ServerTs.get_tournaments upstream validApiKey JSON_stringify args st))
          requests
        /\ Forall (fun req => has_query_key name req = false) requests)
  /\ queryParams args = queryParams (without_falsy args)
  /\ Flagged.title args = Flagged.title (without_falsy args)
  /\ (forall key w, In (key, w) (queryParams args) -> Js.truthy w = true).
Proof.
  intros Hnamed Hfalsy.
  assert (~ In name (Js.keys (queryParams args))) as Habsent.
  { rewrite queryParams_truthy. unfold Js.keys, named_params in *.
    cbn [filter snd]. cbn [In] in Hnamed.
    destruct Hnamed as [E | [E | [E | [E | [E | []]]]]]; inversion E; subst;
      rewrite Hfalsy;
      repeat match goal with
             | |- context [if Js.truthy ?x then _ else _] => destruct (Js.truthy x)
             end;
      cbn; intuition discriminate. }
  assert (name <> "key") as Hname.
  { cbn [named_params In] in Hnamed.
    destruct Hnamed as [E | [E | [E | [E | [E | []]]]]]; inversion E; discriminate. }
  split; [exact Habsent |].
  destruct (absent_from_requests args name st Hname Habsent) as [F S].
  split; [exact F |]. split; [exact S |].
  split; [| split].
  - unfold queryParams, without_falsy. cbn [game format organizerId limit page].
    rewrite !keep_truthy.
    destruct (Js.truthy (game args)), (Js.truthy (format args)),
      (Js.truthy (organizerId args)), (Js.truthy (limit args)),
      (Js.truthy (page args)); reflexivity.
  - unfold Flagged.title, without_falsy. cbn [game format organizerId limit page].
    rewrite !keep_truthy.
    destruct (Js.truthy (game args)), (Js.truthy (format args)),
      (Js.truthy (organizerId args)), (Js.truthy (limit args)),
      (Js.truthy (page args)); reflexivity.
  - intros key w. rewrite queryParams_truthy. intros H.
    apply filter_In in H as [_ H]. exact H.
Qed.

End Falsy.

Lemma falsy_parameters_omitted_witness :
  let args := mkTournamentsParams Js.Null (Js.Str "") (Js.Str "")
                (Js.Number 0) (Js.Number 0) in
  ~ In "limit" (Js.keys (queryParams args))
  /\ ~ In "format" (Js.keys (queryParams args))
  /\ ~ In "game" (Js.keys (queryParams args))
  /\ queryParams args = []
  /\ Flagged.title args = "Limitless Tournaments".
Proof.
  cbv zeta.
  split; [| split; [| split]].
  - apply (falsy_parameters_omitted always_ok "secret" (fun b => b) (fun b => b)
             (mkTournamentsParams Js.Null (Js.Str "") (Js.Str "")
                (Js.Number 0) (Js.Number 0))
             "limit" (Js.Number 0) fresh).
    + cbn. auto 6.
    + reflexivity.
  - apply (falsy_parameters_omitted always_ok "secret" (fun b => b) (fun b => b)
             (mkTournamentsParams Js.Null (Js.Str "") (Js.Str "")
                (Js.Number 0) (Js.Number 0))
             "format" (Js.Str "") fresh).
    + cbn. auto 6.
    + reflexivity.
  - apply (falsy_parameters_omitted always_ok "secret" (fun b => b) (fun b => b)
             (mkTournamentsParams Js.Null (Js.Str "") (Js.Str "")
                (Js.Number 0) (Js.Number 0))
             "game" Js.Null fresh).
    + cbn. auto 6.
    + reflexivity.
  - split; reflexivity.
Defined.

(** ** Start-up *)

(** [getApiKey] returns a string, [null] or [undefined]. *)
Lemma getApiKey_shape (env : option string) (argv : list string) :
  Startup.getApiKey env argv = Js.Null
  \/ Startup.getApiKey env argv = Js.Undefined
  \/ exists key, Startup.getApiKey env argv = Js.Str key.
Proof.
  unfold Startup.getApiKey.
  repeat match goal with
         | |- context [if ?c then _ else _] => destruct c
         | |- context [match ?x with _ => _ end] => destruct x
         end; eauto.
Qed.

(** A truthy result of [getApiKey] is a non-empty string, which is what
    [apiKey as string] assumes. *)
Lemma getApiKey_truthy (env : option string) (argv : list string) :
  Js.truthy (Startup.getApiKey env argv) = true ->
  exists key, Startup.getApiKey env argv = Js.Str key /\ key <> "".
Proof.
  destruct (getApiKey_shape env argv) as [-> | [-> | [key ->]]]; cbn;
    try discriminate.
  intros H. exists key. split; [reflexivity |]. intros ->. discriminate.
Qed.

(** Without a usable environment variable and without an [api-key=]
    argument, [getApiKey] returns [null]. *)
Lemma getApiKey_nothing (env : option string) (argv : list string) :
  (env = None \/ env = Some "") ->
  (forall arg, In arg argv -> Js.startsWith "api-key=" arg = false) ->
  Startup.getApiKey env argv = Js.Null.
Proof.
  intros Henv Hargv. unfold Startup.getApiKey.
  assert (find (fun arg => Js.startsWith "api-key=" arg) argv = None) as ->.
  { induction argv as [| arg rest IH]; [reflexivity |]. cbn [find].
    rewrite (Hargv arg (or_introl eq_refl)). apply IH.
    intros other Hin. apply Hargv. now right. }
  destruct Henv as [-> | ->]; reflexivity.
Qed.

(** A string returned by [getApiKey] is the environment variable or the
    second [=]-separated piece of the first [api-key=] argument. *)
Lemma getApiKey_source (env : option string) (argv : list string) (key : string) :
  Startup.getApiKey env argv = Js.Str key ->
  env = Some key
  \/ exists arg, In arg argv /\ Js.startsWith "api-key=" arg = true
                 /\ nth_error (Js.split "=" arg) 1 = Some key.
Proof.
  unfold Startup.getApiKey. cbv zeta. destruct env as [s |].
  - destruct (Js.truthy (Js.Str s)).
    + intros E. inversion E. now left.
    + intros E. right.
      destruct (find _ argv) as [arg |] eqn:F; [| discriminate].
      apply find_some in F as [Hin Hstart].
      destruct (Js.truthy (Js.Str arg)); [| discriminate].
      destruct (nth_error (Js.split "=" arg) 1) as [piece |] eqn:N; [| discriminate].
      inversion E; subst. eauto.
  - change (Js.truthy Js.Undefined) with false. cbv iota. intros E. right.
    destruct (find _ argv) as [arg |] eqn:F; [| discriminate].
    apply find_some in F as [Hin Hstart].
    destruct (Js.truthy (Js.Str arg)); [| discriminate].
    destruct (nth_error (Js.split "=" arg) 1) as [piece |] eqn:N; [| discriminate].
    inversion E; subst. eauto.
Qed.

(** C9. In the strict variants, when neither the environment variable
    nor an [api-key=] argument gives a credential, start-up writes the
    diagnostic and exits with code 1.  Start-up has no other outcome than
    that exit or a server holding a credential, and a credential a server
    holds is not empty and is the environment variable or the value of
    the [api-key=] argument. *)
Theorem missing_credential_is_fatal (env : option string) (argv : list string) :
  ((env = None \/ env = Some "") ->
   (forall arg, In arg argv -> Js.startsWith "api-key=" arg = false) ->
   Startup.strict env argv = Startup.Exited 1 [Startup.NO_API_KEY])
  /\ (Startup.strict env argv = Startup.Exited 1 [Startup.NO_API_KEY]
      \/ exists key, Startup.strict env argv = Startup.Serving key)
  /\ (forall key,
        Startup.strict env argv = Startup.Serving key ->
        key <> ""
        /\ Startup.getApiKey env argv = Js.Str key
        /\ (env = Some key
            \/ exists arg, In arg argv /\ Js.startsWith "api-key=" arg = true
                           /\ nth_error (Js.split "=" arg) 1 = Some key)).
Proof.
  unfold Startup.strict. split; [| split].
  - intros Henv Hargv. now rewrite (getApiKey_nothing env argv Henv Hargv).
  - destruct (Js.truthy (Startup.getApiKey env argv)); cbn [negb]; eauto.
  - intros key. destruct (Js.truthy (Startup.getApiKey env argv)) eqn:T;
      cbn [negb]; [| discriminate].
    apply getApiKey_truthy in T as [k [E Hk]]. rewrite E. cbn [Js.String].
    intros S. inversion S; subst. split; [exact Hk |]. split; [reflexivity |].
    now apply getApiKey_source.
Qed.

Lemma missing_credential_is_fatal_witness :
  Startup.strict None ["node"; "server.js"]
  = Startup.Exited 1 [Startup.NO_API_KEY]
  /\ Startup.getApiKey (Some "") ["node"; "server.js"; "api-key=abc=def"]
     = Js.Str "abc".
Proof.
  split.
  - apply (proj1 (missing_credential_is_fatal None ["node"; "server.js"])).
    + now left.
    + intros arg [<- | [<- | []]]; reflexivity.
  - apply (proj2 (proj2 (missing_credential_is_fatal (Some "")
                           ["node"; "server.js"; "api-key=abc=def"])) "abc").
    reflexivity.
Defined.

(** An [api-key=] argument with nothing after the sign is no credential
    either: the strict variants exit on it. *)
Lemma empty_argument_is_fatal :
  Startup.strict None ["node"; "server.js"; "api-key="]
  = Startup.Exited 1 [Startup.NO_API_KEY].
Proof. reflexivity. Qed.

(** The lenient variant of [part_002] never exits: without a credential
    it serves with its built-in key. *)
Lemma lenient_never_exits (env : option string) (argv : list string) :
  exists key, Startup.lenient env argv = Startup.Serving key /\ key <> "".
Proof.
  unfold Startup.lenient.
  destruct (Js.truthy (Startup.getApiKey env argv)) eqn:T.
  - apply getApiKey_truthy in T as [k [E Hk]]. rewrite E. eauto.
  - eexists. split; [reflexivity | discriminate].
Qed.

(** * Further properties of the code *)

(** ** The logs are write-only *)

Section WriteOnly.

Context {World Json : Type}.
Variable upstream : World -> Request -> FetchOutcome Json * World.
Variable validApiKey : string.

Lemma continued_bare {A : Type} (w : World) (run : Result A * State) :
  continued (bare w) run = run.
Proof. destruct run as [r [w' s c]]. reflexivity. Qed.

Lemma continued_twice {A B : Type} (st : State (World := World))
    (mid : Result A * State) (run : Result B * State) :
  continued st (continued (snd mid) run) = continued (snd (continued st mid)) run.
Proof.
  unfold continued. cbn [fst snd world sent console].
  now rewrite !app_assoc.
Qed.

Lemma write_only_ret {A : Type} (a : A) : write_only (World := World) (ret a).
Proof.
  intros st. unfold ret, continued, bare. cbn. rewrite !app_nil_r.
  destruct st; reflexivity.
Qed.

Lemma write_only_throw {A : Type} (e : Js.error) :
  write_only (World := World) (A := A) (throw e).
Proof.
  intros st. unfold throw, continued, bare. cbn. rewrite !app_nil_r.
  destruct st; reflexivity.
Qed.

Lemma write_only_console_write (line : string) :
  write_only (World := World) (console_write line).
Proof.
  intros st. unfold console_write, continued, bare. cbn. now rewrite app_nil_r.
Qed.

Lemma write_only_fetch (u : URL) (h : list (string * string)) :
  write_only (fetch upstream u h).
Proof.
  intros st. unfold fetch, continued, bare. cbn [world sent console].
  destruct (upstream (world st) (mkRequest u h)) as [[e | r] w]; cbn;
    now rewrite app_nil_r.
Qed.

Lemma write_only_bind {A B : Type} (m : M A) (k : A -> M B) :
  write_only (World := World) m ->
  (forall a, write_only (k a)) ->
  write_only (bind m k).
Proof.
  intros Hm Hk st. unfold bind. rewrite (Hm st).
  destruct (m (bare (world st))) as [[a | e] s0] eqn:E; cbn [continued fst snd].
  - rewrite (Hk a). cbn [world].
    rewrite (Hk a s0).
    symmetry. apply (continued_twice st (Returned a, s0)).
  - reflexivity.
Qed.

Lemma write_only_try_catch {A : Type} (body : M A) (handler : Js.error -> M A) :
  write_only (World := World) body ->
  (forall e, write_only (handler e)) ->
  write_only (try_catch body handler).
Proof.
  intros Hb Hh st. unfold try_catch. rewrite (Hb st).
  destruct (body (bare (world st))) as [[a | e] s0] eqn:E; cbn [continued fst snd].
  - reflexivity.
  - rewrite (Hh e). cbn [world].
    rewrite (Hh e s0).
    symmetry. apply (continued_twice st (Thrown (A := A) e, s0)).
Qed.

Lemma write_only_attempt (req : Request) : write_only (attempt upstream req).
Proof.
  unfold attempt. apply write_only_bind; [apply write_only_fetch |].
  intros response. destruct (negb (ok response)).
  - apply write_only_bind; [apply write_only_console_write |].
    intros _. apply write_only_throw.
  - apply write_only_bind.
    + unfold response_json. destruct (json response);
        [apply write_only_throw | apply write_only_ret].
    + intros data. apply write_only_ret.
Qed.



Lemma write_only_header_only (endpoint : string) (params : Js.record) :
  write_only (ServerTs.limitlessRequest upstream validApiKey endpoint params).
Proof.
  unfold ServerTs.limitlessRequest.
  apply write_only_try_catch; [apply write_only_attempt |].
  intros e. apply write_only_bind; [apply write_only_console_write |].
  intros _. apply write_only_throw.
Qed.

End WriteOnly.

(** ** What a caller can tell from the outcome *)

Section Outcomes.

Context {World Json : Type}.
Variable upstream : World -> Request -> FetchOutcome Json * World.
Variable validApiKey : string.

#[local] Abbreviation limitlessRequest := (Flagged.limitlessRequest upstream validApiKey).
#[local] Abbreviation prepare := (Flagged.prepare validApiKey).

(** A [try] block returns only the parsed body of a response in 200-299,
    and then it has printed nothing. *)
Lemma attempt_returned (req : Request) (st st1 : State) (data : Json) :
  attempt upstream req st = (Returned data, st1) ->
  exists r w,
    upstream (world st) req = (Resolved r, w)
    /\ ok r = true /\ json r = inr data
    /\ st1 = mkState w (sent st ++ [req])%list (console st).
Proof.
  intros H. destruct (upstream (world st) req) as [[e | r] w] eqn:U.
  - rewrite (attempt_rejected upstream req st e w U) in H. discriminate.
  - destruct (ok r) eqn:Hok.
    + rewrite (attempt_ok upstream req st r w U Hok) in H.
      destruct (json r) as [e | d] eqn:J; [discriminate |].
      inversion H; subst. exists r, w. repeat split; auto.
    + rewrite (attempt_not_ok upstream req st r w U Hok) in H. discriminate.
Qed.

(** After a [try] block the upstream is as the exchange left it. *)
Lemma attempt_world (req : Request) (st : State) :
  world (snd (attempt upstream req st)) = snd (upstream (world st) req).
Proof.
  destruct req as [u h]. unfold attempt, bind, fetch. cbn [url headers].
  destruct (upstream (world st) (mkRequest u h)) as [[e | r] w]; cbn [snd];
    [reflexivity |].
  destruct (negb (ok r)); [reflexivity |].
  unfold response_json. destruct (json r); reflexivity.
Qed.

(** X2. A failure that reaches the caller has been reported: the last
    console line of the call is [Error fetching from Limitless API:]
    followed by that very error, in both clients. *)
Theorem thrown_error_is_logged_last (endpoint : string) (params : Js.record)
    (useHeaderAuth : bool) (st : State) (error : Js.error) :
  (fst (limitlessRequest endpoint params useHeaderAuth st) = Thrown error ->
   exists earlier,
     console (snd (limitlessRequest endpoint params useHeaderAuth st))
     = (earlier ++ [error_line error])%list)
  /\ (fst (ServerTs.limitlessRequest upstream validApiKey endpoint params st)
      = Thrown error ->
      exists earlier,
        console (snd (ServerTs.limitlessRequest upstream validApiKey endpoint
                        params st))
        = (earlier ++ [error_line error])%list).
Proof.
  assert (forall st0,
    fst (limitlessRequest endpoint params true st0) = Thrown error ->
    exists earlier,
      console (snd (limitlessRequest endpoint params true st0))
      = (earlier ++ [error_line error])%list) as Header.
  { intros st0. rewrite limitlessRequest_header.
    destruct (attempt upstream (prepare endpoint params true) st0)
      as [[data | e] st1]; cbn [fst snd]; [discriminate |].
    intros H. inversion H; subst. exists (console st1). reflexivity. }
  split.
  - destruct useHeaderAuth; [apply Header |].
    rewrite limitlessRequest_query.
    destruct (attempt upstream (prepare endpoint params false) st)
      as [[data | e] st1]; cbn [fst snd]; [discriminate |].
    apply Header.
  - rewrite header_only_run.
    destruct (attempt upstream (ServerTs.prepare validApiKey endpoint params) st)
      as [[data | e] st1]; cbn [fst snd]; [discriminate |].
    intros H. inversion H; subst. exists (console st1). reflexivity.
Qed.

(** X3. When both attempts fail, the caller gets the failure of the
    header-mode attempt; the failure of the query-parameter attempt is
    only on the console, before the retry notice. *)
Theorem second_failure_is_reported (endpoint : string) (params : Js.record)
    (st st1 st2 : State) (first second : Js.error) :
  attempt upstream (prepare endpoint params false) st = (Thrown first, st1) ->
  attempt upstream (prepare endpoint params true)
    (logged [error_line first; "Retrying with header authentication..."] st1)
  = (Thrown second, st2) ->
  limitlessRequest endpoint params false st
  = (Thrown second, logged [error_line second] st2)
  /\ exists between,
       console (snd (limitlessRequest endpoint params false st))
       = (console st1
          ++ [error_line first; "Retrying with header authentication..."]
          ++ between ++ [error_line second])%list.
Proof.
  intros Hq Hh.
  assert (limitlessRequest endpoint params false st
          = (Thrown second, logged [error_line second] st2)) as Run.
  { rewrite limitlessRequest_query, Hq, limitlessRequest_header.
    unfold error_line in Hh. rewrite Hh. reflexivity. }
  split; [exact Run |].
  rewrite Run. cbn [snd logged console].
  pose proof (write_only_attempt upstream (prepare endpoint params true)
    (logged [error_line first; "Retrying with header authentication..."] st1)) as W.
  rewrite Hh in W. unfold continued in W. inversion W as [[Hres Hst]].
  exists (console (snd (attempt upstream (prepare endpoint params true)
            (bare (world (logged [error_line first;
                                  "Retrying with header authentication..."] st1)))))).
  cbn [logged console]. now rewrite <- !app_assoc.
Qed.

(** X4. When the first attempt of a call in query-parameter mode
    succeeds, the call is that attempt: one request, the credential in
    the URL, no header, nothing printed, and no header-mode request. *)
Theorem first_success_sends_one_request (endpoint : string) (params : Js.record)
    (st st1 : State) (data : Json) :
  attempt upstream (prepare endpoint params false) st = (Returned data, st1) ->
  limitlessRequest endpoint params false st = (Returned data, st1)
  /\ sent st1 = (sent st ++ [prepare endpoint params false])%list
  /\ console st1 = console st
  /\ has_header "X-Access-Key" (prepare endpoint params false) = false
  /\ has_query_key "key" (prepare endpoint params false) = true.
Proof.
  intros H. split.
  - rewrite limitlessRequest_query, H. reflexivity.
  - apply attempt_returned in H as (r & w & _ & _ & _ & ->).
    cbn [sent console]. repeat split.
    unfold has_query_key. rewrite prepare_query_search, existsb_app.
    cbn. apply orb_true_r.
Qed.

(** X5. A response in 200-299 whose body is not JSON counts as a failure:
    in query-parameter mode the request is sent again in header mode, in
    header mode the parse error goes to the caller; in neither case is an
    [API request failed] line printed. *)
Theorem unparsable_body_is_a_failure (endpoint : string) (params : Js.record)
    (useHeaderAuth : bool) (st : State) (r : Response Json) (w : World)
    (parse_error : Js.error) :
  upstream (world st) (prepare endpoint params useHeaderAuth) = (Resolved r, w) ->
  ok r = true ->
  json r = inl parse_error ->
  let answered :=
    mkState w (sent st ++ [prepare endpoint params useHeaderAuth])%list (console st) in
  limitlessRequest endpoint params useHeaderAuth st
  = if useHeaderAuth
    then (Thrown parse_error, logged [error_line parse_error] answered)
    else limitlessRequest endpoint params true
           (logged [error_line parse_error;
                    "Retrying with header authentication..."] answered).
Proof.
  intros U Hok Hjson answered.
  pose proof (attempt_ok upstream _ st r w U Hok) as Run. rewrite Hjson in Run.
  destruct useHeaderAuth.
  - rewrite limitlessRequest_header, Run. reflexivity.
  - rewrite limitlessRequest_query, Run. reflexivity.
Qed.

(** X6. Data a call returns is the parsed body of a response in 200-299
    to one of its own requests: to the request of its mode asked of the
    upstream as the call found it, or, from query-parameter mode, to the
    header-mode request asked of the upstream as the first exchange left
    it.  Nothing is ever returned from another status. *)
Theorem returned_data_comes_from_a_success (endpoint : string)
    (params : Js.record) (useHeaderAuth : bool) (st : State) (data : Json) :
  fst (limitlessRequest endpoint params useHeaderAuth st) = Returned data ->
  exists req w0 r w,
    upstream w0 req = (Resolved r, w)
    /\ (200 <= status r <= 299)%Z
    /\ json r = inr data
    /\ ((req = prepare endpoint params useHeaderAuth /\ w0 = world st)
        \/ (useHeaderAuth = false
            /\ req = prepare endpoint params true
            /\ w0 = snd (upstream (world st) (prepare endpoint params false)))).
Proof.
  assert (forall r : Response Json, ok r = true -> (200 <= status r <= 299)%Z)
    as Range.
  { intros r H. unfold ok in H. apply andb_true_iff in H as [L U].
    apply Z.leb_le in L, U. lia. }
  assert (forall st0,
    fst (limitlessRequest endpoint params true st0) = Returned data ->
    exists r w, upstream (world st0) (prepare endpoint params true) = (Resolved r, w)
                /\ ok r = true /\ json r = inr data) as Header.
  { intros st0. rewrite limitlessRequest_header.
    destruct (attempt upstream (prepare endpoint params true) st0)
      as [[d | e] st1] eqn:A; cbn [fst]; [| discriminate].
    intros H. inversion H; subst.
    apply attempt_returned in A as (r & w & U & Hok & Hjson & _). eauto. }
  destruct useHeaderAuth.
  - intros H. apply Header in H as (r & w & U & Hok & Hjson).
    exists (prepare endpoint params true), (world st), r, w.
    split; [exact U |]. split; [now apply Range |]. split; [exact Hjson |].
    now left.
  - rewrite limitlessRequest_query.
    destruct (attempt upstream (prepare endpoint params false) st)
      as [[d | e] st1] eqn:A; cbn [fst].
    + intros H. inversion H; subst.
      apply attempt_returned in A as (r & w & U & Hok & Hjson & _).
      exists (prepare endpoint params false), (world st), r, w.
      split; [exact U |]. split; [now apply Range |]. split; [exact Hjson |].
      now left.
    + intros H. apply Header in H as (r & w & U & Hok & Hjson).
      cbn [logged world] in U.
      exists (prepare endpoint params true), (world st1), r, w.
      split; [exact U |]. split; [now apply Range |]. split; [exact Hjson |].
      right. split; [reflexivity |]. split; [reflexivity |].
      pose proof (attempt_world (prepare endpoint params false) st) as Hw.
      rewrite A in Hw. exact Hw.
Qed.

(** X7. For an endpoint that does not start with a separator, a call of
    the flagged client in header mode is a call of the client of
    [src/server.ts]: same result, same requests, same console. *)
Theorem header_mode_is_the_header_only_client (endpoint : string)
    (params : Js.record) (st : State) :
  Js.startsWith "/" endpoint = false ->
  limitlessRequest endpoint params true st
  = ServerTs.limitlessRequest upstream validApiKey endpoint params st.
Proof.
  intros H. rewrite limitlessRequest_header, header_only_run.
  assert (prepare endpoint params true
          = ServerTs.prepare validApiKey endpoint params) as ->.
  { unfold Flagged.prepare, ServerTs.prepare, Flagged.cleanEndpoint.
    now rewrite H. }
  reflexivity.
Qed.

End Outcomes.

Lemma thrown_error_is_logged_last_witness :
  exists earlier,
    console (snd (Flagged.limitlessRequest unreachable "secret" "tournaments" []
                    false fresh))
    = (earlier ++ [error_line (Js.mkError "TypeError" "fetch failed")])%list.
Proof.
  apply (proj1 (thrown_error_is_logged_last unreachable "secret" "tournaments" []
                  false fresh (Js.mkError "TypeError" "fetch failed"))).
  reflexivity.
Defined.

Lemma second_failure_is_reported_witness :
  fst (Flagged.limitlessRequest
         (fun (answered : nat) (_ : Request) =>
            (match answered with
             | O => Resolved (mkResponse 401 "Unauthorized" (inr "{}"))
             | S _ => Resolved (mkResponse 503 "Service Unavailable" (inr "{}"))
             end, S answered))
         "secret" "tournaments" [] false fresh)
  = Thrown (Js.Error "API request failed: 503 Service Unavailable").
Proof.
  pose (flaky := fun (answered : nat) (_ : Request) =>
            (match answered with
             | O => Resolved (mkResponse 401 "Unauthorized" (inr "{}"))
             | S _ => Resolved (mkResponse 503 "Service Unavailable" (inr "{}"))
             end, S answered)).
  pose (st1 := snd (attempt flaky (Flagged.prepare "secret" "tournaments" [] false)
                      fresh)).
  pose (st2 := snd (attempt flaky (Flagged.prepare "secret" "tournaments" [] true)
                      (logged [error_line (Js.Error "API request failed: 401 Unauthorized");
                               "Retrying with header authentication..."] st1))).
  destruct (second_failure_is_reported flaky "secret" "tournaments" [] fresh st1 st2
              (Js.Error "API request failed: 401 Unauthorized")
              (Js.Error "API request failed: 503 Service Unavailable")
              eq_refl eq_refl) as [Run _].
  fold flaky. rewrite Run. reflexivity.
Defined.

Lemma first_success_sends_one_request_witness :
  Flagged.limitlessRequest always_ok "secret" "tournaments" [] false fresh
  = (Returned "[]",
     mkState 1
       [mkRequest (mkURL "https://play.limitlesstcg.com/api/tournaments"
                     [("key", "secret")]) []]
       []).
Proof.
  apply (first_success_sends_one_request always_ok "secret" "tournaments" [] fresh).
  reflexivity.
Defined.

Lemma unparsable_body_is_a_failure_witness :
  fst (Flagged.limitlessRequest garbled "secret" "tournaments" [] true fresh)
  = Thrown (Js.mkError "SyntaxError" "Unexpected token < in JSON at position 0").
Proof.
  rewrite (unparsable_body_is_a_failure garbled "secret" "tournaments" [] true fresh
             (mkResponse 200 "OK"
                (inl (Js.mkError "SyntaxError"
                        "Unexpected token < in JSON at position 0")))
             1 (Js.mkError "SyntaxError" "Unexpected token < in JSON at position 0")
             eq_refl eq_refl eq_refl).
  reflexivity.
Defined.

Lemma returned_data_comes_from_a_success_witness :
  exists req w0 r w,
    header_auth_only w0 req = (Resolved r, w)
    /\ (200 <= status r <= 299)%Z
    /\ json r = inr "[]"
    /\ ((req = Flagged.prepare "secret" "tournaments" [] false /\ w0 = world fresh)
        \/ (false = false
            /\ req = Flagged.prepare "secret" "tournaments" [] true
            /\ w0 = snd (header_auth_only (world fresh)
                           (Flagged.prepare "secret" "tournaments" [] false)))).
Proof.
  apply (returned_data_comes_from_a_success header_auth_only "secret" "tournaments"
           [] false fresh "[]").
  reflexivity.
Defined.

Lemma header_mode_is_the_header_only_client_witness :
  Flagged.limitlessRequest unreachable "secret" "tournaments/123/pairings" []
    true fresh
  = ServerTs.limitlessRequest unreachable "secret" "tournaments/123/pairings" []
      fresh.
Proof.
  apply (header_mode_is_the_header_only_client unreachable "secret"
           "tournaments/123/pairings" [] fresh).
  reflexivity.
Defined.

(** ** The tools, end to end *)



Section Tools.

Context {World Json : Type}.
Variable upstream : World -> Request -> FetchOutcome Json * World.
Variable validApiKey : string.
Variable JSON_stringify : Json -> string.
Variable JSON_stringify_pretty : Json -> string.
Variable name_or : Json -> string -> Js.error + string.

#[local] Abbreviation flagged_tool :=
  (Flagged.call_tool upstream validApiKey JSON_stringify_pretty name_or).
#[local] Abbreviation server_ts_tool :=
  (ServerTs.call_tool upstream validApiKey JSON_stringify).




(** X9. In [src/server.ts] the answer of the upstream decides the
    envelope.  A rejected fetch, a status outside 200-299 and a body
    that is not JSON each give the flagged envelope with the tool's label
    and the failure, the status failure reading
    [Error: API request failed: <status> <statusText>]; a parsed body in
    200-299 gives the unflagged envelope with its serialisation and
    leaves the console alone.  Either way one request has been sent. *)
Theorem server_ts_envelope (i : Invocation) (st : State)
    (outcome : FetchOutcome Json) (w : World) :
  let req := ServerTs.prepare validApiKey (endpoint_of i) (params_of i) in
  upstream (world st) req = (outcome, w) ->
  server_ts_tool i st
  = match outcome with
    | Rejected error =>
        (Returned (failure (error_label i ++ Js.error_toString error)),
         mkState w (sent st ++ [req])%list (console st ++ [error_line error])%list)
    | Resolved r =>
        if ok r
        then match json r with
             | inr data =>
                 (Returned (success (JSON_stringify data)),
                  mkState w (sent st ++ [req])%list (console st))
             | inl error =>
                 (Returned (failure (error_label i ++ Js.error_toString error)),
                  mkState w (sent st ++ [req])%list
                    (console st ++ [error_line error])%list)
             end
        else
          (Returned
             (failure (error_label i ++ "Error: API request failed: "
                       ++ Js.number_toString (status r) ++ " " ++ statusText r)),
           mkState w (sent st ++ [req])%list
             (console st
              ++ [("API request failed: " ++ Js.number_toString (status r)
                   ++ " " ++ statusText r)%string;
                  ("Error fetching from Limitless API: Error: API request failed: "
                   ++ Js.number_toString (status r) ++ " " ++ statusText r)%string])%list)
    end.
Proof.
  intros req U.
  assert (ServerTs.limitlessRequest upstream validApiKey (endpoint_of i)
            (params_of i) st
          = match outcome with
            | Rejected error =>
                (Thrown error,
                 mkState w (sent st ++ [req])%list
                   (console st ++ [error_line error])%list)
            | Resolved r =>
                if ok r
                then match json r with
                     | inr data =>
                         (Returned data,
                          mkState w (sent st ++ [req])%list (console st))
                     | inl error =>
                         (Thrown error,
                          mkState w (sent st ++ [req])%list
                            (console st ++ [error_line error])%list)
                     end
                else
                  (Thrown (Js.Error (api_request_failed r)),
                   mkState w (sent st ++ [req])%list
                     (console st
                      ++ [api_request_failed r;
                          error_line (Js.Error (api_request_failed r))])%list)
            end) as Run.
  { rewrite header_only_run. fold req. destruct outcome as [error | r].
    - rewrite (attempt_rejected upstream req st error w U). reflexivity.
    - destruct (ok r) eqn:Hok.
      + rewrite (attempt_ok upstream req st r w U Hok).
        destruct (json r); reflexivity.
      + rewrite (attempt_not_ok upstream req st r w U Hok).
        unfold logged. cbn [world sent console]. now rewrite <- app_assoc. }
  destruct i as [args | id | id | id];
    cbn [ServerTs.call_tool];
    unfold ServerTs.get_tournaments, ServerTs.get_tournament_details,
      ServerTs.get_tournament_standings, ServerTs.get_tournament_pairings,
      try_catch, bind, ret;
    cbn [endpoint_of params_of] in Run; rewrite Run;
    (destruct outcome as [error | r];
     [reflexivity | destruct (ok r); [destruct (json r); reflexivity | reflexivity]]).
Qed.

End Tools.


Lemma server_ts_envelope_witness :
  ServerTs.call_tool
    (fun (w : nat) (_ : Request) =>
       (Resolved (mkResponse 404 "Not Found" (inr "{}")), S w))
    "secret" (fun body => body) (GetTournamentPairings "nope") fresh
  = (Returned
       (mkCallToolResult (Some true)
          [mkTextContent "text"
             "Error fetching tournament pairings: Error: API request failed: 404 Not Found"]),
     mkState 1
       [mkRequest (mkURL "https://play.limitlesstcg.com/api/tournaments/nope/pairings" [])
          [("X-Access-Key", "secret")]]
       ["API request failed: 404 Not Found";
        "Error fetching from Limitless API: Error: API request failed: 404 Not Found"]).
Proof.
  apply (server_ts_envelope
           (fun (w : nat) (_ : Request) =>
              (Resolved (mkResponse 404 "Not Found" (inr "{}")), S w))
           "secret" (fun body => body) (GetTournamentPairings "nope") fresh
           (Resolved (mkResponse 404 "Not Found" (inr "{}"))) 1).
  reflexivity.
Defined.

(** ** Bodies, trace lines and resources *)

Section Variants.

Context {World Json : Type}.
Variable upstream : World -> Request -> FetchOutcome Json * World.
Variable validApiKey : string.
Variable JSON_stringify_pretty : Json -> string.
Variable name_or : Json -> string -> Js.error + string.

#[local] Abbreviation limitlessRequest := (Flagged.limitlessRequest upstream validApiKey).

(** X10. When the request for the details succeeds but the name cannot
    be read from the body (the body is [null]), the tool of [part_000]
    still answers, with the flagged envelope carrying the [TypeError];
    the resource of [part_002] throws it.  Both end in the state the
    request left, requests sent included. *)
Theorem unreadable_name_is_a_failure (id uri_href : string) (st st1 : State)
    (tournament : Json) (type_error : Js.error) :
  limitlessRequest ("tournaments/" ++ id ++ "/details") [] false st
  = (Returned tournament, st1) ->
  name_or tournament id = inl type_error ->
  Flagged.get_tournament_details upstream validApiKey JSON_stringify_pretty
    name_or id st
  = (Returned (failure ("Error fetching tournament details: "
                        ++ Js.error_toString type_error)), st1)
  /\ ResourcesTwo.tournament_details upstream validApiKey JSON_stringify_pretty
       name_or uri_href id st
     = (Thrown type_error, st1).
Proof.
  intros Run Hname. split.
  - unfold Flagged.get_tournament_details, try_catch, bind.
    rewrite Run, Hname. reflexivity.
  - unfold ResourcesTwo.tournament_details, bind. rewrite Run, Hname. reflexivity.
Qed.



(** X12. The resources of [part_002] hand on what the client gives.
    Each ends in the state its request ends in; a failure of the request
    is thrown as it is, with no envelope; data gives one element, under
    the address asked for, whose text is the serialised data, unless the
    details resource cannot read the name. *)
Theorem resources_hand_on_the_outcome (uri_href : string) (i : Invocation)
    (st : State) :
  let request := limitlessRequest (endpoint_of i) (params_of i) false st in
  let reading := ResourcesTwo.read_resource upstream validApiKey
                   JSON_stringify_pretty name_or uri_href i st in
  snd reading = snd request
  /\ (forall error, fst request = Thrown error -> fst reading = Thrown error)
  /\ (forall data,
        fst request = Returned data ->
        (exists element,
           fst reading = Returned [element]
           /\ Resources.uri element = uri_href
           /\ Resources.resource_text element = JSON_stringify_pretty data)
        \/ (exists id type_error,
              i = GetTournamentDetails id
              /\ name_or data id = inl type_error
              /\ fst reading = Thrown type_error)).
Proof.
  cbv zeta.
  destruct i as [args | id | id | id];
    cbn [ResourcesTwo.read_resource endpoint_of params_of];
    unfold ResourcesTwo.tournaments, ResourcesTwo.tournament_details,
      ResourcesTwo.tournament_standings, ResourcesTwo.tournament_pairings, bind, ret;
    destruct (Flagged.limitlessRequest _ _ _ _ _ _) as [[d | e] st1];
    cbn [fst snd];
    try (split; [reflexivity |]; split;
         [intros error H; now inversion H | discriminate]).
  - split; [reflexivity |]. split; [discriminate |].
    intros data H. inversion H; subst. left. eexists. cbn. auto.
  - destruct (name_or d id) as [te | name] eqn:N.
    + split; [reflexivity |]. split; [discriminate |].
      intros data H. inversion H; subst. right. exists id, te. auto.
    + split; [reflexivity |]. split; [discriminate |].
      intros data H. inversion H; subst. left. eexists. cbn. auto.
  - split; [reflexivity |]. split; [discriminate |].
    intros data H. inversion H; subst. left. eexists. cbn. auto.
  - split; [reflexivity |]. split; [discriminate |].
    intros data H. inversion H; subst. left. eexists. cbn. auto.
Qed.

End Variants.

Lemma unreadable_name_is_a_failure_witness :
  fst (Flagged.get_tournament_details always_ok "secret" (fun body => body)
         (fun _ _ => inl (Js.mkError "TypeError"
                            "Cannot read properties of null (reading 'name')"))
         "123" fresh)
  = Returned (mkCallToolResult (Some true)
      [mkTextContent "text"
         "Error fetching tournament details: TypeError: Cannot read properties of null (reading 'name')"]).
Proof.
  pose (unreadable := fun (_ : string) (_ : string) =>
          @inl Js.error string
            (Js.mkError "TypeError" "Cannot read properties of null (reading 'name')")).
  destruct (unreadable_name_is_a_failure always_ok "secret" (fun body => body)
              unreadable "123" "limitless://tournament/123/details" fresh
              (snd (Flagged.limitlessRequest always_ok "secret"
                      "tournaments/123/details" [] false fresh))
              "[]"
              (Js.mkError "TypeError" "Cannot read properties of null (reading 'name')")
              eq_refl eq_refl) as [Tool _].
  fold unreadable. rewrite Tool. reflexivity.
Defined.

Lemma resources_hand_on_the_outcome_witness :
  fst (ResourcesTwo.read_resource unreachable "secret" (fun body => body)
         (fun _ id => inr id) "limitless://tournament/123/pairings"
         (GetTournamentPairings "123") fresh)
  = Thrown (Js.mkError "TypeError" "fetch failed").
Proof.
  apply (resources_hand_on_the_outcome unreachable "secret" (fun body => body)
           (fun _ id => inr id) "limitless://tournament/123/pairings"
           (GetTournamentPairings "123") fresh).
  reflexivity.
Defined.

(** ** The record of the list tool and the credential *)

Section ListRecord.

Variable validApiKey : string.

(** X13. The record the list tool builds has each of its names once,
    all among [game], [format], [organizerId], [limit] and [page], so it
    never names [key]: in query-parameter mode the only [key] of the URL
    is the credential, and in header mode the URL has none. *)
Theorem credential_is_the_only_key (args : TournamentsParams) :
  NoDup (Js.keys (queryParams args))
  /\ incl (Js.keys (queryParams args))
       ["game"; "format"; "organizerId"; "limit"; "page"]
  /\ filter (fun q => fst q =? "key")
       (searchParams (url (Flagged.prepare validApiKey "tournaments"
                             (queryParams args) false)))
     = [("key", validApiKey)]
  /\ has_query_key "key"
       (Flagged.prepare validApiKey "tournaments" (queryParams args) true) = false
  /\ has_query_key "key"
       (ServerTs.prepare validApiKey "tournaments" (queryParams args)) = false.
Proof.
  assert (incl (Js.keys (queryParams args))
            ["game"; "format"; "organizerId"; "limit"; "page"]) as Names.
  { rewrite queryParams_truthy. unfold Js.keys, named_params. cbn [filter snd].
    intros name H.
    destruct (Js.truthy (game args)), (Js.truthy (format args)),
      (Js.truthy (organizerId args)), (Js.truthy (limit args)),
      (Js.truthy (page args)); cbn in H |- *; intuition. }
  assert (~ In "key" (map fst (retained (queryParams args)))) as NoKey.
  { intros H. apply retained_keys_subset, Names in H. cbn in H.
    intuition discriminate. }
  split; [| split; [exact Names | split; [| split]]].
  - rewrite queryParams_truthy. unfold Js.keys, named_params. cbn [filter snd].
    destruct (Js.truthy (game args)), (Js.truthy (format args)),
      (Js.truthy (organizerId args)), (Js.truthy (limit args)),
      (Js.truthy (page args)); cbn;
      repeat (constructor; [cbn; intuition discriminate |]); constructor.
  - rewrite prepare_query_search, filter_app. cbn [filter fst].
    rewrite String.eqb_refl.
    assert (filter (fun q => fst q =? "key") (retained (queryParams args)) = [])
      as ->; [| reflexivity].
    induction (retained (queryParams args)) as [| [k v] rest IH]; [reflexivity |].
    cbn [filter fst map] in *. destruct (k =? "key") eqn:E.
    + apply String.eqb_eq in E. subst. exfalso. apply NoKey. now left.
    + apply IH. intros H. apply NoKey. now right.
  - apply has_query_key_false. now rewrite prepare_header_search.
  - apply has_query_key_false. unfold ServerTs.prepare. cbn [url].
    now rewrite add_query_parameters_retained.
Qed.

End ListRecord.

(** ** Resolving the credential *)

Lemma split_starts_with_until (sep : ascii) (s : string) :
  exists pieces, Js.split sep s = until sep s :: pieces.
Proof.
  induction s as [| c rest [pieces IH]]; cbn [Js.split until].
  - eauto.
  - destruct (Ascii.eqb c sep); [eauto |]. rewrite IH. eauto.
Qed.

Lemma until_is_a_prefix (sep : ascii) (s : string) :
  String.prefix (until sep s) s = true.
Proof.
  induction s as [| c rest IH]; cbn [until]; [reflexivity |].
  destruct (Ascii.eqb c sep); [reflexivity |].
  cbn [String.prefix]. destruct (ascii_dec c c); [exact IH | congruence].
Qed.

(** X14. A non-empty [LIMITLESS_API_KEY] is the credential whatever the
    command line says.  Without it, the credential comes from the first
    argument that starts with [api-key=], later ones being ignored, and
    is what follows that sign up to the next [=]: a value with an [=] in
    it is cut there. *)
Theorem getApiKey_resolution (env : option string) (variable : string)
    (before after : list string) (value : string) :
  (variable <> "" ->
   forall argv, Startup.getApiKey (Some variable) argv = Js.Str variable)
  /\ ((env = None \/ env = Some "") ->
      (forall arg, In arg before -> Js.startsWith "api-key=" arg = false) ->
      Startup.getApiKey env (before ++ ("api-key=" ++ value) :: after)
      = Js.Str (until "=" value)
      /\ String.prefix (until "=" value) value = true).
Proof.
  split.
  - intros H argv. unfold Startup.getApiKey. cbn [Js.truthy].
    destruct (variable =? "") eqn:E; [| reflexivity].
    apply String.eqb_eq in E. contradiction.
  - intros Henv Hbefore. split; [| apply until_is_a_prefix].
    unfold Startup.getApiKey.
    assert (find (fun arg => Js.startsWith "api-key=" arg)
              (before ++ ("api-key=" ++ value) :: after)
            = Some ("api-key=" ++ value)) as ->.
    { induction before as [| arg rest IH]; cbn [app find].
      - assert (Js.startsWith "api-key=" ("api-key=" ++ value) = true) as ->;
          [| reflexivity].
        unfold Js.startsWith. cbn. destruct value; reflexivity.
      - rewrite (Hbefore arg (or_introl eq_refl)). apply IH.
        intros other Hin. apply Hbefore. now right. }
    destruct (split_starts_with_until "=" value) as [pieces Hsplit].
    assert (Js.split "=" ("api-key=" ++ value)
            = "api-key" :: until "=" value :: pieces) as Hpieces.
    { cbn. rewrite Hsplit. reflexivity. }
    rewrite Hpieces. destruct Henv as [-> | ->]; reflexivity.
Qed.

Lemma getApiKey_resolution_witness :
  Startup.getApiKey (Some "from-env") ["node"; "server.js"; "api-key=from-arg"]
  = Js.Str "from-env"
  /\ Startup.getApiKey None ["node"; "server.js"; "api-key=ab=cd"; "api-key=second"]
     = Js.Str "ab".
Proof.
  split.
  - apply (proj1 (getApiKey_resolution None "from-env" [] [] "")).
    discriminate.
  - apply (proj2 (getApiKey_resolution None "" ["node"; "server.js"]
                    ["api-key=second"] "ab=cd")).
    + now left.
    + intros arg [<- | [<- | []]]; reflexivity.
Defined.

(** X15. The lenient start-up of [part_002] agrees with the strict one
    wherever the strict one serves, and where the strict one exits it
    serves with its built-in key. *)
Theorem lenient_serves_where_strict_exits (env : option string)
    (argv : list string) :
  (forall key,
     Startup.strict env argv = Startup.Serving key ->
     Startup.lenient env argv = Startup.Serving key)
  /\ (forall code lines,
        Startup.strict env argv = Startup.Exited code lines ->
        Startup.lenient env argv = Startup.Serving Startup.DEFAULT_KEY).
Proof.
  unfold Startup.strict, Startup.lenient.
  destruct (Js.truthy (Startup.getApiKey env argv)); cbn [negb]; split;
    intros; try discriminate; try reflexivity; assumption.
Qed.

Lemma lenient_serves_where_strict_exits_witness :
  Startup.lenient (Some "abc") [] = Startup.Serving "abc"
  /\ Startup.lenient None ["node"; "server.js"; "api-key="]
     = Startup.Serving "dddc5b23b5bae0a87ca800c20d336022".
Proof.
  split.
  - apply (proj1 (lenient_serves_where_strict_exits (Some "abc") [])).
    reflexivity.
  - apply (proj2 (lenient_serves_where_strict_exits None
                    ["node"; "server.js"; "api-key="]) 1%Z [Startup.NO_API_KEY]).
    reflexivity.
Defined.

(** ** The error flag of the tools of [part_000] *)

Section ErrorFlag.

Context {World Json : Type}.
Variable upstream : World -> Request -> FetchOutcome Json * World.
Variable validApiKey : string.
Variable JSON_stringify_pretty : Json -> string.
Variable name_or : Json -> string -> Js.error + string.

(** X16. A tool of [part_000] answers with an envelope whose flag is
    either set or absent.  It is absent exactly when the request returned
    data and, for the details tool, the name could be read; the text is
    then a heading, an empty line and the serialised data.  In every
    other case the flag is set. *)
Theorem error_flag_tells_failure (i : Invocation) (st : State) :
  let request :=
    Flagged.limitlessRequest upstream validApiKey (endpoint_of i) (params_of i)
      false (logged (printed_before_request i) st) in
  exists envelope,
    fst (Flagged.call_tool upstream validApiKey JSON_stringify_pretty name_or i st)
    = Returned envelope
    /\ (isError envelope = None \/ isError envelope = Some true)
    /\ (isError envelope = None <->
        exists data,
          fst request = Returned data
          /\ forall id, i = GetTournamentDetails id ->
                        exists name, name_or data id = inr name)
    /\ (forall data,
          isError envelope = None ->
          fst request = Returned data ->
          exists heading,
            content envelope
            = [mkTextContent "text"
                 (heading ++ newline ++ newline ++ JSON_stringify_pretty data)]).
Proof.
  cbv zeta.
  destruct i as [args | id | id | id];
    cbn [Flagged.call_tool endpoint_of params_of printed_before_request];
    rewrite ?logged_nil;
    unfold Flagged.get_tournaments, Flagged.get_tournament_details,
      Flagged.get_tournament_standings, Flagged.get_tournament_pairings,
      try_catch, bind, ret, throw, console_write, logged;
    destruct (Flagged.limitlessRequest _ _ _ _ _ _) as [[d | e] st1];
    cbn [fst];
    try (eexists; split; [reflexivity |]; cbn [failure isError content];
         split; [now right |]; split;
         [split; [discriminate | intros [data [H _]]; discriminate]
         | intros data H; discriminate]).
  - eexists. split; [reflexivity |]. cbn [success isError content].
    split; [now left |]. split.
    + split; [| reflexivity]. intros _. exists d. split; [reflexivity |].
      intros id H. discriminate.
    + intros data _ H. inversion H; subst. exists ("# " ++ Flagged.title args). reflexivity.
  - destruct (name_or d id) as [te | name] eqn:N.
    + eexists. split; [reflexivity |]. cbn [failure isError content].
      split; [now right |]. split.
      * split; [discriminate |]. intros [data [H Hname]]. inversion H; subst.
        destruct (Hname id eq_refl) as [name Hn]. congruence.
      * intros data H. discriminate.
    + eexists. split; [reflexivity |]. cbn [success isError content].
      split; [now left |]. split.
      * split; [| reflexivity]. intros _. exists d. split; [reflexivity |].
        intros id' H. inversion H; subst. eauto.
      * intros data _ H. inversion H; subst. exists ("# Tournament: " ++ name). reflexivity.
  - eexists. split; [reflexivity |]. cbn [success isError content].
    split; [now left |]. split.
    + split; [| reflexivity]. intros _. exists d. split; [reflexivity |].
      intros id' H. discriminate.
    + intros data _ H. inversion H; subst. exists "# Tournament Standings". reflexivity.
  - eexists. split; [reflexivity |]. cbn [success isError content].
    split; [now left |]. split.
    + split; [| reflexivity]. intros _. exists d. split; [reflexivity |].
      intros id' H. discriminate.
    + intros data _ H. inversion H; subst. exists "# Tournament Pairings". reflexivity.
Qed.

End ErrorFlag.

Lemma error_flag_tells_failure_witness :
  exists envelope,
    fst (Flagged.call_tool always_ok "secret" (fun body => body)
           (fun _ id => inr id)
           (GetTournaments (mkTournamentsParams (Js.Str "VGC") Js.Null (Js.Str "")
                              (Js.Number 5) Js.Undefined)) fresh)
    = Returned envelope
    /\ isError envelope = None.
Proof.
  destruct (error_flag_tells_failure always_ok "secret" (fun body => body)
              (fun _ id => inr id)
              (GetTournaments (mkTournamentsParams (Js.Str "VGC") Js.Null (Js.Str "")
                                 (Js.Number 5) Js.Undefined)) fresh)
    as (envelope & Run & _ & Flag & _).
  exists envelope. split; [exact Run |].
  apply Flag. exists "[]". split; [reflexivity |]. intros id H. discriminate H.
Defined.
